(** * Form Architect AI: a shallow embedding of the export mapper, the
      response sanitizer, the generation client and the file ingestion,
      with the properties of the specification settled against them.

    Strings are modelled as JavaScript has them: sequences of UTF-16 code
    units, each code unit a natural number ([N]).  Regular expressions are
    given their backtracking semantics (ECMAScript, no flags other than the
    ones written in the source), so that the two regular expressions of
    [geminiService] are embedded as they are written. *)

From Stdlib Require Import List NArith ZArith QArith Bool Ascii String Lia Arith.
Import ListNotations.
Close Scope Q_scope.

Set Implicit Arguments.
Set Warnings "-register-all".

(* ===================================================================== *)
(** ** JavaScript strings *)
(* ===================================================================== *)

Module JS.

Abbreviation jsstring := (list N).

(** A literal of the source, as code units (ASCII literals only). *)
Fixpoint js (s : string) : jsstring :=
  match s with
  | EmptyString => []
  | String a r => N_of_ascii a :: js r
  end.

Definition eqs (a b : jsstring) : bool :=
  if list_eq_dec N.eq_dec a b then true else false.

(** [\s] of a regular expression, which is also the set [trim] strips:
    WhiteSpace and LineTerminator code points. *)
Definition is_space (c : N) : bool :=
  ((9 <=? c) && (c <=? 13) || (c =? 32) || (c =? 160) || (c =? 5760)
   || (8192 <=? c) && (c <=? 8202) || (c =? 8232) || (c =? 8233)
   || (c =? 8239) || (c =? 8287) || (c =? 12288) || (c =? 65279))%N.

(** [\w] without the [i] and [u] flags: [A-Za-z0-9_]. *)
Definition is_word (c : N) : bool :=
  ((65 <=? c) && (c <=? 90) || (97 <=? c) && (c <=? 122)
   || (48 <=? c) && (c <=? 57) || (c =? 95))%N.

Fixpoint trimStart (s : jsstring) : jsstring :=
  match s with
  | c :: r => if is_space c then trimStart r else s
  | [] => []
  end.

Definition trimEnd (s : jsstring) : jsstring := rev (trimStart (rev s)).

(** [String.prototype.trim]. *)
Definition trim (s : jsstring) : jsstring := trimEnd (trimStart s).

(** [String.prototype.startsWith]. *)
Fixpoint startsWith (s p : jsstring) {struct p} : bool :=
  match p with
  | [] => true
  | a :: p' =>
      match s with
      | b :: s' => (a =? b)%N && startsWith s' p'
      | [] => false
      end
  end.

(** [String.prototype.includes]. *)
Fixpoint includes (s p : jsstring) : bool :=
  startsWith s p ||
  match s with
  | [] => false
  | _ :: r => includes r p
  end.

(** [Array.prototype.join]. *)
Fixpoint join (sep : jsstring) (l : list jsstring) : jsstring :=
  match l with
  | [] => []
  | [a] => a
  | a :: r => a ++ sep ++ join sep r
  end.

(** [String.prototype.split] with a separator of one code unit. *)
Fixpoint split (sep : N) (s : jsstring) : list jsstring :=
  match s with
  | [] => [[]]
  | c :: r =>
      if (c =? sep)%N then [] :: split sep r
      else match split sep r with
           | h :: t => (c :: h) :: t
           | [] => [[c]]
           end
  end.

(** [String.prototype.toLowerCase], on the letters of ASCII; the other
    code units are kept.  (No other code point lowers to a string of ASCII
    letters only, but for the Kelvin sign, which lowers to [k].) *)
Definition toLowerCase (s : jsstring) : jsstring :=
  map (fun c => if ((65 <=? c) && (c <=? 90))%N then (c + 32)%N
                else if (c =? 8490)%N then 107%N else c) s.

(** [Array.prototype.includes] on an array of strings. *)
Definition array_includes (l : list jsstring) (x : jsstring) : bool :=
  existsb (eqs x) l.

End JS.
Import JS.

(* ===================================================================== *)
(** ** Regular expressions with backtracking *)
(* ===================================================================== *)

Module Regex.

Inductive regex : Type :=
| Eps
| Chr (p : N -> bool)              (* a character class, [.] included *)
| Cat (r1 r2 : regex)
| Alt (r1 r2 : regex)
| Star (greedy : bool) (r : regex) (* [r*] and [r*?] *)
| Opt (greedy : bool) (r : regex)  (* [r?] and [r??] *)
| Group (i : nat) (r : regex)      (* the i-th capturing group *)
| Ahead (r : regex)                (* [(?=r)] *)
| Bol                              (* [^], no [m] flag *)
| Eol.                             (* [$], no [m] flag *)

(** A match state: the index reached, the input still to read, and the
    captures made so far. *)
Record state := St {
  pos : nat;
  rest : jsstring;
  caps : list (nat * jsstring)
}.

Definition cont := state -> option state.

Definition orelse (a : option state) (b : unit -> option state) :=
  match a with
  | Some x => Some x
  | None => b tt
  end.

Definition uncapture (i : nat) (c : list (nat * jsstring)) :=
  filter (fun e => negb (Nat.eqb (fst e) i)) c.

(** A quantifier [r*] ([r*?] when not [greedy]) over the matcher [m] of
    [r]: an iteration that consumes nothing is refused, so that [n], the
    number of code units left, bounds the iterations. *)
Fixpoint star (m : state -> cont -> option state) (greedy : bool) (k : cont)
    (n : nat) (x : state) {struct n} : option state :=
  let iter (_ : unit) :=
    match n with
    | O => None
    | S n' =>
        m x (fun y => if Nat.eqb (pos y) (pos x) then None
                      else star m greedy k n' y)
    end in
  if greedy then orelse (iter tt) (fun _ => k x)
  else orelse (k x) iter.

(** The matcher of a pattern, in continuation-passing style: alternatives
    are tried in the order ECMAScript tries them. *)
Fixpoint run (r : regex) (x : state) (k : cont) {struct r} : option state :=
  match r with
  | Eps => k x
  | Chr p =>
      match rest x with
      | c :: t => if p c then k (St (S (pos x)) t (caps x)) else None
      | [] => None
      end
  | Cat r1 r2 => run r1 x (fun y => run r2 y k)
  | Alt r1 r2 => orelse (run r1 x k) (fun _ => run r2 x k)
  | Star greedy r1 => star (run r1) greedy k (List.length (rest x)) x
  | Opt greedy r1 =>
      let iter (_ : unit) :=
        run r1 x (fun y => if Nat.eqb (pos y) (pos x) then None else k y) in
      if greedy then orelse (iter tt) (fun _ => k x)
      else orelse (k x) iter
  | Group i r1 =>
      run r1 (St (pos x) (rest x) (uncapture i (caps x)))
        (fun y => k (St (pos y) (rest y)
                        ((i, firstn (pos y - pos x) (rest x)) :: caps y)))
  | Ahead r1 =>
      match run r1 x (fun y => Some y) with
      | Some y => k (St (pos x) (rest x) (caps y))
      | None => None
      end
  | Bol => if Nat.eqb (pos x) 0 then k x else None
  | Eol => match rest x with [] => k x | _ :: _ => None end
  end.

(** One attempt at index [i], where [s] is what is left of the input. *)
Definition exec_at (r : regex) (i : nat) (s : jsstring) : option state :=
  run r (St i s []) (fun y => Some y).

(** [String.prototype.match] with a regular expression without the [g]
    flag: the first index at which the pattern matches. *)
Fixpoint search (r : regex) (i : nat) (s : jsstring) : option state :=
  match exec_at r i s with
  | Some y => Some y
  | None =>
      match s with
      | [] => None
      | _ :: t => search r (S i) t
      end
  end.

Definition match_ (r : regex) (s : jsstring) : option state := search r 0 s.

(** [match[i]]: the last capture of group [i], [None] for [undefined]. *)
Fixpoint capture (i : nat) (c : list (nat * jsstring)) : option jsstring :=
  match c with
  | [] => None
  | (j, v) :: t => if Nat.eqb i j then Some v else capture i t
  end.

(** [String.prototype.replace] with a regular expression with the [g]
    flag: [skip] counts the code units of the match in progress that are
    still to be dropped. *)
Fixpoint replace_from (r : regex) (by_ : jsstring) (i skip : nat)
    (s : jsstring) : jsstring :=
  match skip with
  | S skip' =>
      match s with
      | [] => []
      | _ :: t => replace_from r by_ (S i) skip' t
      end
  | O =>
      match exec_at r i s with
      | Some y =>
          match pos y - i with
          | O => by_ ++ match s with
                        | [] => []
                        | c :: t => c :: replace_from r by_ (S i) 0 t
                        end
          | S m => by_ ++ match s with
                          | [] => []
                          | _ :: t => replace_from r by_ (S i) m t
                          end
          end
      | None =>
          match s with
          | [] => []
          | c :: t => c :: replace_from r by_ (S i) 0 t
          end
      end
  end.

Definition replace_all (r : regex) (by_ : jsstring) (s : jsstring) :=
  replace_from r by_ 0 0 s.

Definition lit1 (c : N) : regex := Chr (N.eqb c).

Fixpoint lit (s : jsstring) : regex :=
  match s with
  | [] => Eps
  | c :: t => Cat (lit1 c) (lit t)
  end.

Definition any : N -> bool := fun _ => true.

End Regex.
Import Regex.

(* ===================================================================== *)
(** ** JSON: values, [JSON.parse], [JSON.stringify] of a string *)
(* ===================================================================== *)

Module Json.

(** A number literal denotes [(-1)^neg * mant * 10^exp10]. *)
Record number := Num { neg : bool; mant : N; exp10 : Z }.

Inductive json : Type :=
| JNull
| JBool (b : bool)
| JNum (n : number)
| JStr (s : jsstring)
| JArr (l : list json)
| JObj (m : list (jsstring * json)).

Inductive outcome (A : Type) : Type :=
| Ok (a : A) (rest : jsstring)
| SyntaxError
| OutOfFuel.
Arguments SyntaxError {A}.
Arguments OutOfFuel {A}.

(** JSON white space: tab, line feed, carriage return, space. *)
Definition is_json_ws (c : N) : bool :=
  ((c =? 9) || (c =? 10) || (c =? 13) || (c =? 32))%N.

Fixpoint skip_ws (s : jsstring) : jsstring :=
  match s with
  | c :: r => if is_json_ws c then skip_ws r else s
  | [] => []
  end.

Definition is_digit (c : N) : bool := ((48 <=? c) && (c <=? 57))%N.

Fixpoint digits (s : jsstring) : jsstring * jsstring :=
  match s with
  | c :: r => if is_digit c then let (d, t) := digits r in (c :: d, t)
              else ([], s)
  | [] => ([], [])
  end.

Definition digits_value (d : jsstring) : N :=
  fold_left (fun a c => (10 * a + (c - 48))%N) d 0%N.

Definition hex_value (c : N) : option N :=
  if is_digit c then Some (c - 48)%N
  else if ((97 <=? c) && (c <=? 102))%N then Some (c - 87)%N
  else if ((65 <=? c) && (c <=? 70))%N then Some (c - 55)%N
  else None.

Definition hex4 (a b c d : N) : option N :=
  match hex_value a, hex_value b, hex_value c, hex_value d with
  | Some x, Some y, Some z, Some w => Some (((x * 16 + y) * 16 + z) * 16 + w)%N
  | _, _, _, _ => None
  end.

(** The characters of a string literal after its opening quote. *)
Fixpoint lex_string (s : jsstring) : option (jsstring * jsstring) :=
  let more (c : N) (r : jsstring) :=
    match lex_string r with
    | Some (v, t) => Some (c :: v, t)
    | None => None
    end in
  match s with
  | [] => None
  | 34%N :: r => Some ([], r)
  | 92%N :: r =>
      match r with
      | 34%N :: r' => more 34%N r'
      | 92%N :: r' => more 92%N r'
      | 47%N :: r' => more 47%N r'
      | 98%N :: r' => more 8%N r'
      | 102%N :: r' => more 12%N r'
      | 110%N :: r' => more 10%N r'
      | 114%N :: r' => more 13%N r'
      | 116%N :: r' => more 9%N r'
      | 117%N :: a :: b :: c :: d :: r' =>
          match hex4 a b c d with
          | Some v => more v r'
          | None => None
          end
      | _ => None
      end
  | c :: r => if (c <? 32)%N then None else more c r
  end.

(** A number literal: an optional minus sign, an integer part without
    leading zero, an optional fraction and an optional exponent. *)
Definition lex_number (s : jsstring) : outcome number :=
  let (sign, s1) := match s with
                    | 45%N :: r => (true, r)
                    | _ => (false, s)
                    end in
  let (ip, s2) := digits s1 in
  match ip with
  | [] => SyntaxError
  | d0 :: ip' =>
      if (d0 =? 48)%N && negb (Nat.eqb (List.length ip') 0) then SyntaxError
      else
        let fr := match s2 with
                  | 46%N :: r =>
                      let (fp, s3) := digits r in
                      match fp with [] => None | _ :: _ => Some (fp, s3) end
                  | _ => Some ([], s2)
                  end in
        match fr with
        | None => SyntaxError
        | Some (fp, s3) =>
            let m := digits_value (ip ++ fp) in
            let shift := Z.of_nat (List.length fp) in
            let after (esign : bool) (r : jsstring) :=
              let (ep, s4) := digits r in
              match ep with
              | [] => SyntaxError
              | _ :: _ =>
                  let e := Z.of_N (digits_value ep) in
                  Ok (Num sign m ((if esign then - e else e) - shift)%Z) s4
              end in
            match s3 with
            | c :: r =>
                if ((c =? 101) || (c =? 69))%N then
                  match r with
                  | 43%N :: r' => after false r'
                  | 45%N :: r' => after true r'
                  | _ => after false r
                  end
                else Ok (Num sign m (- shift)%Z) s3
            | [] => Ok (Num sign m (- shift)%Z) s3
            end
        end
  end.

Fixpoint parse_value (fuel : nat) (s : jsstring) {struct fuel} : outcome json :=
  match fuel with
  | O => OutOfFuel
  | S f =>
      match skip_ws s with
      | 123%N :: r =>
          match skip_ws r with
          | 125%N :: r' => Ok (JObj []) r'
          | _ => parse_members f r []
          end
      | 91%N :: r =>
          match skip_ws r with
          | 93%N :: r' => Ok (JArr []) r'
          | _ => parse_elements f r []
          end
      | 34%N :: r =>
          match lex_string r with
          | Some (v, t) => Ok (JStr v) t
          | None => SyntaxError
          end
      | 116%N :: 114%N :: 117%N :: 101%N :: r => Ok (JBool true) r
      | 102%N :: 97%N :: 108%N :: 115%N :: 101%N :: r => Ok (JBool false) r
      | 110%N :: 117%N :: 108%N :: 108%N :: r => Ok JNull r
      | s' =>
          match lex_number s' with
          | Ok n t => Ok (JNum n) t
          | SyntaxError => SyntaxError
          | OutOfFuel => OutOfFuel
          end
      end
  end

with parse_elements (fuel : nat) (s : jsstring) (acc : list json)
    {struct fuel} : outcome json :=
  match fuel with
  | O => OutOfFuel
  | S f =>
      match parse_value f s with
      | Ok v r =>
          match skip_ws r with
          | 44%N :: r' => parse_elements f r' (v :: acc)
          | 93%N :: r' => Ok (JArr (rev (v :: acc))) r'
          | _ => SyntaxError
          end
      | SyntaxError => SyntaxError
      | OutOfFuel => OutOfFuel
      end
  end

with parse_members (fuel : nat) (s : jsstring) (acc : list (jsstring * json))
    {struct fuel} : outcome json :=
  match fuel with
  | O => OutOfFuel
  | S f =>
      match skip_ws s with
      | 34%N :: r =>
          match lex_string r with
          | Some (key, t) =>
              match skip_ws t with
              | 58%N :: t' =>
                  match parse_value f t' with
                  | Ok v r1 =>
                      match skip_ws r1 with
                      | 44%N :: r' => parse_members f r' ((key, v) :: acc)
                      | 125%N :: r' => Ok (JObj (rev ((key, v) :: acc))) r'
                      | _ => SyntaxError
                      end
                  | SyntaxError => SyntaxError
                  | OutOfFuel => OutOfFuel
                  end
              | _ => SyntaxError
              end
          | None => SyntaxError
          end
      | _ => SyntaxError
      end
  end.

Definition parse_fuel (s : jsstring) : nat := 2 * List.length s + 1.

(** [JSON.parse] without a reviver: [None] stands for the [SyntaxError]. *)
Definition JSON_parse (s : jsstring) : option json :=
  match parse_value (parse_fuel s) s with
  | Ok v r => match skip_ws r with [] => Some v | _ :: _ => None end
  | _ => None
  end.

(** What reading a property of a parsed value gives. *)
Inductive property : Type :=
| Throws                 (* a [TypeError]: the value is [null] *)
| Undefined
| Value (v : json).

Fixpoint last_binding (key : jsstring) (m : list (jsstring * json))
    (found : option json) : option json :=
  match m with
  | [] => found
  | (k, v) :: t => last_binding key t (if eqs k key then Some v else found)
  end.

(** [v.key] for a key that no prototype defines ([title], [description]
    and [items] are such keys): an own property of an object, the last one
    when the text repeats the key; [undefined] on arrays, strings, numbers
    and booleans; a [TypeError] on [null]. *)
Definition get (v : json) (key : jsstring) : property :=
  match v with
  | JNull => Throws
  | JObj m => match last_binding key m None with
              | Some w => Value w
              | None => Undefined
              end
  | _ => Undefined
  end.

(** A number literal whose value rounds to zero as a double: the mantissa
    is zero, or the magnitude is at most [2^-1075]. *)
Definition rounds_to_zero (n : number) : bool :=
  (mant n =? 0)%N ||
  ((exp10 n <? 0)%Z &&
   (Z.of_N (mant n) * 2 ^ 1075 <=? 10 ^ (- exp10 n))%Z).

(** [!!v] *)
Definition truthy (v : json) : bool :=
  match v with
  | JNull => false
  | JBool b => b
  | JNum n => negb (rounds_to_zero n)
  | JStr s => match s with [] => false | _ :: _ => true end
  | JArr _ => true
  | JObj _ => true
  end.

Definition isArray (v : json) : bool :=
  match v with
  | JArr _ => true
  | _ => false
  end.

Definition hex_digit (d : N) : N := if (d <? 10)%N then (48 + d)%N else (87 + d)%N.

(** [\uXXXX], in lower-case hexadecimal digits. *)
Definition unicode_escape (c : N) : jsstring :=
  [92; 117; hex_digit (c / 4096 mod 16); hex_digit (c / 256 mod 16);
   hex_digit (c / 16 mod 16); hex_digit (c mod 16)]%N.

Definition is_high_surrogate (c : N) : bool := ((55296 <=? c) && (c <=? 56319))%N.
Definition is_low_surrogate (c : N) : bool := ((56320 <=? c) && (c <=? 57343))%N.

Definition quote_unit (c : N) : jsstring :=
  if (c =? 8)%N then [92; 98]%N
  else if (c =? 9)%N then [92; 116]%N
  else if (c =? 10)%N then [92; 110]%N
  else if (c =? 12)%N then [92; 102]%N
  else if (c =? 13)%N then [92; 114]%N
  else if (c =? 34)%N then [92; 34]%N
  else if (c =? 92)%N then [92; 92]%N
  else if (c <? 32)%N then unicode_escape c
  else if is_high_surrogate c || is_low_surrogate c then unicode_escape c
  else [c].

Fixpoint quote_units (s : jsstring) : jsstring :=
  match s with
  | [] => []
  | c :: r =>
      if is_high_surrogate c then
        match r with
        | d :: r' =>
            if is_low_surrogate d then c :: d :: quote_units r'
            else quote_unit c ++ quote_units r
        | [] => quote_unit c
        end
      else quote_unit c ++ quote_units r
  end.

(** [JSON.stringify] of a string: the quoted literal, in which control
    characters, the quote, the backslash and lone surrogates are escaped. *)
Definition JSON_stringify (s : jsstring) : jsstring :=
  [34%N] ++ quote_units s ++ [34%N].

End Json.
Import Json.

(* ===================================================================== *)
(** ** services/geminiService: sanitizer and generation client *)
(* ===================================================================== *)

Module Gemini.

Definition is_comma (c : N) : bool := (c =? 44)%N.
Definition is_closer (c : N) : bool := ((c =? 125) || (c =? 93))%N.

(** The pattern of [sanitizeJsonString], flag [g]: a comma, then a
    look-ahead for lazy [\s] followed by one of [}] and []]. *)
Definition trailingComma : regex :=
  Cat (Chr is_comma) (Ahead (Cat (Star false (Chr is_space)) (Chr is_closer))).

Definition sanitizeJsonString (jsonStr : jsstring) : jsstring :=
  replace_all trailingComma [] jsonStr.

Definition fence : jsstring := [96; 96; 96]%N.

(** [fenceRegex], flag [s]: [^], three back-ticks, an optional group 1 of
    greedy [\w], greedy [\s], an optional line feed, group 2 of lazy [.],
    an optional line feed, greedy [\s], three back-ticks, [$]. *)
Definition fenceRegex : regex :=
  Cat Bol
 (Cat (lit fence)
 (Cat (Opt true (Group 1 (Star true (Chr is_word))))
 (Cat (Star true (Chr is_space))
 (Cat (Opt true (lit1 10))
 (Cat (Group 2 (Star false (Chr any)))
 (Cat (Opt true (lit1 10))
 (Cat (Star true (Chr is_space))
 (Cat (lit fence) Eol)))))))).

(** Lines 279 to 289: the text handed to [JSON.parse]. *)
Definition cleanResponse (text : jsstring) : jsstring :=
  let jsonStr := trim text in
  let jsonStr :=
    match match_ fenceRegex jsonStr with
    | Some m =>
        match capture 2 (caps m) with
        | Some (c :: i) => trim (c :: i)
        | _ => jsonStr
        end
    | None => jsonStr
    end in
  sanitizeJsonString jsonStr.

(** What can be thrown inside the [try] block. *)
Inductive thrown : Type :=
| ThrownSyntaxError
| ThrownError (message : jsstring)  (* any other instance of [Error] *)
| ThrownOther.                      (* not an instance of [Error] *)

(** The outcome of [ai.models.generateContent]: the call is rejected, or
    it answers and [response.text] is a string or [undefined]. *)
Inductive upstream : Type :=
| Rejected (e : thrown)
| Answered (text : option jsstring).

Inductive generated : Type :=
| Returned (parsedData : json)
| GenerationError (message : jsstring).

Definition MISSING_FIELDS : jsstring :=
  js "AI response is missing required fields (title, description, or items).".
Definition MISSING_FIELDS_KEY : jsstring :=
  js "AI response is missing required fields".
Definition NOT_PROCESSED : jsstring :=
  js "The AI's response couldn't be processed. This can happen with complex requests. Please try simplifying or rephrasing your input.".
Definition FAILED : jsstring :=
  js "Failed to generate form from AI. The service might be temporarily unavailable or the input is too complex.".

(** [!v.key], which throws on [null]. *)
Definition absent (v : json) (key : jsstring) : thrown + bool :=
  match get v key with
  | Throws => inl (ThrownError (js "Cannot read properties of null"))
  | Undefined => inr true
  | Value w => inr (negb (truthy w))
  end.

(** The body of the [try] block. *)
Definition generateFormFromText_try (r : upstream) : thrown + json :=
  match r with
  | Rejected e => inl e
  | Answered None => inl (ThrownError (js "Cannot read properties of undefined"))
  | Answered (Some text) =>
      match JSON_parse (cleanResponse text) with
      | None => inl ThrownSyntaxError
      | Some parsedData =>
          match absent parsedData (js "title") with
          | inl e => inl e
          | inr true => inl (ThrownError MISSING_FIELDS)
          | inr false =>
              match absent parsedData (js "description") with
              | inl e => inl e
              | inr true => inl (ThrownError MISSING_FIELDS)
              | inr false =>
                  match get parsedData (js "items") with
                  | Throws => inl (ThrownError (js "Cannot read properties of null"))
                  | Value w => if isArray w then inr parsedData
                               else inl (ThrownError MISSING_FIELDS)
                  | Undefined => inl (ThrownError MISSING_FIELDS)
                  end
              end
          end
      end
  end.

(** The [catch] block. *)
Definition generateFormFromText_catch (e : thrown) : jsstring :=
  match e with
  | ThrownSyntaxError => NOT_PROCESSED
  | ThrownError message =>
      if includes message MISSING_FIELDS_KEY then message else FAILED
  | ThrownOther => FAILED
  end.

Definition generateFormFromText (r : upstream) : generated :=
  match generateFormFromText_try r with
  | inr parsedData => Returned parsedData
  | inl e => GenerationError (generateFormFromText_catch e)
  end.

End Gemini.

(* ===================================================================== *)
(** ** types: the item schema *)
(* ===================================================================== *)

Module Types.

Inductive ItemType : Type :=
| SHORT_ANSWER
| PARAGRAPH
| MULTIPLE_CHOICE
| CHECKBOXES
| DROPDOWN
| SECTION_HEADER.

(** [string | string[]] *)
Inductive answer : Type :=
| One (s : jsstring)
| Many (l : list jsstring).

(** An optional field is [None] when it is [undefined] (or [null]).
    [points] is a number of the source; it is modelled as an integer. *)
Record FormItem := {
  title : jsstring;
  description : option jsstring;
  type : ItemType;
  options : option (list jsstring);
  points : option Z;
  correctAnswer : option answer;
  required : option bool
}.

Record Form := {
  form_title : jsstring;
  form_description : jsstring;
  items : list FormItem
}.

End Types.
Import Types.

(* ===================================================================== *)
(** ** components/GoogleFormModal: the export mapper *)
(* ===================================================================== *)

Module GoogleFormModal.

Fixpoint uint_units (d : Decimal.uint) : jsstring :=
  match d with
  | Decimal.Nil => []
  | Decimal.D0 r => 48%N :: uint_units r
  | Decimal.D1 r => 49%N :: uint_units r
  | Decimal.D2 r => 50%N :: uint_units r
  | Decimal.D3 r => 51%N :: uint_units r
  | Decimal.D4 r => 52%N :: uint_units r
  | Decimal.D5 r => 53%N :: uint_units r
  | Decimal.D6 r => 54%N :: uint_units r
  | Decimal.D7 r => 55%N :: uint_units r
  | Decimal.D8 r => 56%N :: uint_units r
  | Decimal.D9 r => 57%N :: uint_units r
  end.

(** An integer inside a template literal: its decimal digits (what
    JavaScript prints for an integer below [10^21] in magnitude). *)
Definition numberToString (z : Z) : jsstring :=
  match z with
  | Z0 => [48%N]
  | Zpos p => uint_units (Pos.to_uint p)
  | Zneg p => 45%N :: uint_units (Pos.to_uint p)
  end.

Definition boolToString (b : bool) : jsstring :=
  if b then js "true" else js "false".

Definition nl : jsstring := [10%N].
Definition dq : jsstring := [34%N].

(** [item.points || 0] *)
Definition points_or_0 (item : FormItem) : Z :=
  match points item with
  | Some p => p
  | None => 0
  end.

(** [!!item.required] *)
Definition is_required (item : FormItem) : bool :=
  match required item with
  | Some b => b
  | None => false
  end.

(** [item.correctAnswer && typeof item.correctAnswer === 'string'] *)
Definition string_answer (item : FormItem) : option jsstring :=
  match correctAnswer item with
  | Some (One (c :: s)) => Some (c :: s)
  | _ => None
  end.

(** Line 63. *)
Definition hasAnswerKey (item : FormItem) : bool :=
  match correctAnswer item with
  | None => false
  | Some (Many l) => Nat.ltb 0 (List.length l)
  | Some (One s) => match s with [] => false | _ :: _ => true end
  end.

(** Lines 66 to 68. *)
Definition isCorrect (item : FormItem) (option_ : jsstring) : bool :=
  match correctAnswer item with
  | Some (Many l) => array_includes l option_
  | Some (One s) => eqs s option_
  | None => false
  end.

Definition AI_WARNING : jsstring :=
  js "  // AI WARNING: This question was assigned points, but the AI did not identify a correct answer. Please set the answer manually in the Form editor.".
Definition MANUAL_STEP : jsstring :=
  js "  // --- IMPORTANT: MANUAL STEP REQUIRED FOR THE QUESTION ABOVE ---".
Definition MANUAL_WHY : jsstring :=
  js "  // Google Apps Script does not allow setting the correct answer for 'Short Answer' questions automatically.".
Definition SUGGESTED : jsstring :=
  js "  // You must set this in the Google Forms editor. The suggested correct answer is: ".
Definition MANUAL_ENTRY : jsstring :=
  js "  // You must set the correct answer manually in the Google Forms editor.".
Definition MANUAL_END : jsstring :=
  js "  // -------------------------------------------------------------".

Definition choiceMethod (t : ItemType) : jsstring :=
  match t with
  | MULTIPLE_CHOICE => js "addMultipleChoiceItem"
  | CHECKBOXES => js "addCheckboxItem"
  | _ => js "addListItem"
  end.

(** The callback of [form.items.map] in [generateAppsScript]. *)
Definition itemScript (item : FormItem) : jsstring :=
  let title_ := JSON_stringify (title item) in
  let points_ := points_or_0 item in
  let required_ := boolToString (is_required item) in
  match type item with
  | SHORT_ANSWER =>
      let itemSetup :=
        js "  var item = form.addTextItem().setTitle(" ++ title_
          ++ js ").setRequired(" ++ required_ ++ js ");" in
      if (0 <? points_)%Z then
        itemSetup
          ++ (nl ++ js "  item.setPoints(" ++ numberToString points_ ++ js ");")
          ++ (nl ++ nl ++ MANUAL_STEP)
          ++ (nl ++ MANUAL_WHY)
          ++ match string_answer item with
             | Some a => nl ++ SUGGESTED ++ JSON_stringify a
             | None => nl ++ MANUAL_ENTRY
             end
          ++ (nl ++ MANUAL_END)
      else itemSetup
  | PARAGRAPH =>
      js "  form.addParagraphTextItem().setTitle(" ++ title_
        ++ js ").setRequired(" ++ required_ ++ js ");"
  | MULTIPLE_CHOICE | DROPDOWN | CHECKBOXES =>
      let itemSetup :=
        js "  var item = form." ++ choiceMethod (type item)
          ++ js "().setTitle(" ++ title_
          ++ js ").setRequired(" ++ required_ ++ js ");" in
      let choices :=
        join (js ", ")
          (map (fun option_ =>
                  js "item.createChoice(" ++ JSON_stringify option_ ++ js ", "
                    ++ boolToString (isCorrect item option_) ++ js ")")
               (match options item with Some l => l | None => [] end)) in
      let itemSetup := itemSetup ++ (nl ++ js "  item.setChoices([" ++ choices ++ js "]);") in
      let itemSetup :=
        if (0 <? points_)%Z
        then itemSetup ++ (nl ++ js "  item.setPoints(" ++ numberToString points_ ++ js ");")
        else itemSetup in
      if (0 <? points_)%Z && negb (hasAnswerKey item)
      then itemSetup ++ (nl ++ AI_WARNING)
      else itemSetup
  | SECTION_HEADER =>
      let description_ :=
        JSON_stringify (match description item with
                        | Some (c :: d) => c :: d
                        | _ => []
                        end) in
      js "  form.addSectionHeaderItem().setTitle(" ++ title_
        ++ js ").setHelpText(" ++ description_ ++ js ");"
  end.

Definition scriptHead (form : Form) : list jsstring :=
  [ js "function createFormFromAI() {";
    js "  /* ";
    js "   * How to use this script:";
    js "   * 1. Go to script.google.com/create in your browser.";
    js "   * 2. Paste this entire code into the editor, replacing any existing content.";
    js "   * 3. Click the " ++ dq ++ js "Save project" ++ dq ++ js " icon (floppy disk).";
    js "   * 4. Click the " ++ dq ++ js "Run" ++ dq ++ js " button.";
    js "   * 5. Google will ask for permission. Click " ++ dq ++ js "Review permissions"
      ++ dq ++ js " and " ++ dq ++ js "Allow" ++ dq ++ js ".";
    js "   * 6. After it runs, click " ++ dq ++ js "View" ++ dq ++ js " > " ++ dq
      ++ js "Executions" ++ dq ++ js " to see the links to your new form.";
    js "   *";
    js "   * NOTE: Some items, like answers for text questions, may require manual setup.";
    js "   * Please review the generated form and script comments carefully.";
    js "  */";
    js "  ";
    js "  try {";
    js "    var form = FormApp.create(" ++ JSON_stringify (form_title form) ++ js ");";
    js "    form.setDescription(" ++ JSON_stringify (form_description form) ++ js ");";
    js "    form.setIsQuiz(true); // Make it a quiz!";
    [] ].

Definition scriptTail : list jsstring :=
  [ [];
    js "    Logger.log('" ++ [9989%N] ++ js " Form created successfully!');";
    js "    Logger.log('View your form here: ' + form.getPublishedUrl());";
    js "    Logger.log('Edit your form here: ' + form.getEditUrl());";
    js "  } catch (e) {";
    js "    Logger.log('" ++ [10060%N] ++ js " Error creating form: ' + e.toString());";
    js "  }";
    js "}" ].

(** The template literal of [generateAppsScript]: the lines of the head,
    the item statements separated by a blank line, the lines of the tail. *)
Definition generateAppsScript (form : Form) : jsstring :=
  let formItems := join (nl ++ nl) (map itemScript (items form)) in
  join nl (scriptHead form ++ [formItems] ++ scriptTail).

(** *** Mode A: the requests of the Forms API *)

Record Grading := {
  pointValue : Z;
  correctAnswers : list jsstring
}.

Record Question := {
  q_required : option bool;
  grading : option Grading;
  textQuestion : option bool;                        (* [{ paragraph }] *)
  choiceQuestion : option (jsstring * list jsstring) (* [{ type, options }] *)
}.

Inductive ItemBody : Type :=
| questionItem (question : Question)
| textItem.

Record CreateItem := {
  ci_title : jsstring;
  ci_description : option jsstring;
  ci_body : ItemBody;
  location_index : nat
}.

Inductive Request : Type :=
| updateSettings (isQuiz : bool) (updateMask : jsstring)
| createItem (c : CreateItem)
| updateFormInfo (description_ : jsstring) (updateMask : jsstring).

(** [item.required] as a condition. *)
Definition required_flag (item : FormItem) : option bool :=
  if is_required item then Some true else None.

(** Lines 137 to 143: [item.points && item.points > 0 &&
    item.correctAnswer], where an empty string is falsy and any array,
    the empty one included, is truthy. *)
Definition gradingOf (item : FormItem) : option Grading :=
  match points item, correctAnswer item with
  | Some p, Some a =>
      if negb (p =? 0)%Z && (0 <? p)%Z then
        match a with
        | Many l => Some {| pointValue := p; correctAnswers := l |}
        | One (c :: s) => Some {| pointValue := p; correctAnswers := [c :: s] |}
        | One [] => None
        end
      else None
  | _, _ => None
  end.

Definition mapItemToApiRequest (item : FormItem) : option Request :=
  let question := {| q_required := required_flag item;
                     grading := gradingOf item;
                     textQuestion := None;
                     choiceQuestion := None |} in
  let choice (kind : jsstring) :=
    {| q_required := q_required question;
       grading := grading question;
       textQuestion := None;
       choiceQuestion :=
         Some (kind, match options item with Some l => l | None => [] end) |} in
  let wrap (body : ItemBody) :=
    Some (createItem {| ci_title := title item; ci_description := None;
                        ci_body := body; location_index := 0 |}) in
  match type item with
  | SHORT_ANSWER =>
      wrap (questionItem {| q_required := q_required question;
                            grading := grading question;
                            textQuestion := Some false;
                            choiceQuestion := None |})
  | PARAGRAPH =>
      wrap (questionItem {| q_required := required_flag item;
                            grading := None;
                            textQuestion := Some true;
                            choiceQuestion := None |})
  | MULTIPLE_CHOICE => wrap (questionItem (choice (js "RADIO")))
  | CHECKBOXES => wrap (questionItem (choice (js "CHECKBOX")))
  | DROPDOWN => wrap (questionItem (choice (js "DROP_DOWN")))
  | SECTION_HEADER =>
      Some (createItem {| ci_title := title item;
                          ci_description := description item;
                          ci_body := textItem; location_index := 0 |})
  end.

(** [.filter(Boolean)] on the mapped requests. *)
Fixpoint filter_Boolean (l : list (option Request)) : list Request :=
  match l with
  | [] => []
  | Some r :: t => r :: filter_Boolean t
  | None :: t => filter_Boolean t
  end.

(** Lines 233 to 249. *)
Definition allRequests (form : Form) : list Request :=
  let quizSettingsRequest := updateSettings true (js "quizSettings.isQuiz") in
  let itemRequests := rev (filter_Boolean (map mapItemToApiRequest (items form))) in
  let descriptionUpdateRequest :=
    updateFormInfo (form_description form) (js "description") in
  [quizSettingsRequest] ++ itemRequests ++ [descriptionUpdateRequest].

(** The two calls of the Forms API. *)
Inductive call : Type :=
| POST_forms (accessToken : jsstring) (info_title documentTitle : jsstring)
| POST_batchUpdate (accessToken : jsstring) (formId : jsstring)
    (requests : list Request) (includeFormInResponse : bool).

(** What a [fetch] and the reading of its body give: a rejection, or a
    response with its [ok] flag, the [error.message] of its body, if any,
    and the data of a successful body. *)
Inductive fetched (A : Type) : Type :=
| fetch_rejected (message : option jsstring)
| fetch_response (ok : bool) (error_message : option jsstring) (data : A).
Arguments fetch_rejected {A}.

Record createData := {
  formId_ : jsstring;
  responderUri : jsstring
}.

Inductive Status : Type := idle | authenticating | creating | success | error.

Record modal := {
  status : Status;
  error_ : option jsstring;
  formUrl : option jsstring
}.

Definition thrown_message (m : option jsstring) : jsstring :=
  match m with
  | Some s => s
  | None => js "An unknown error occurred during form creation."
  end.

Definition failed (m : jsstring) (u : modal) : modal :=
  {| status := error; error_ := Some m; formUrl := formUrl u |}.

(** [createForm]: the calls it issues and the state of the modal it
    leaves, given what the platform answers to each call. *)
Definition createForm (form : Form) (accessToken : jsstring)
    (createResponse : fetched createData) (batchUpdateResponse : fetched unit)
    (u : modal) : list call * modal :=
  let u := {| status := creating; error_ := None; formUrl := formUrl u |} in
  let c1 := POST_forms accessToken (form_title form) (form_title form) in
  match createResponse with
  | fetch_rejected m => ([c1], failed (thrown_message m) u)
  | fetch_response false m _ =>
      ([c1], failed (match m with
                     | Some (c :: s) => c :: s
                     | _ => js "Failed to create the initial form."
                     end) u)
  | fetch_response true _ d =>
      let c2 := POST_batchUpdate accessToken (formId_ d) (allRequests form) false in
      match Nat.ltb 0 (List.length (allRequests form)) with
      | false =>
          ([c1], {| status := success; error_ := None;
                    formUrl := Some (responderUri d) |})
      | true =>
          match batchUpdateResponse with
          | fetch_rejected m => ([c1; c2], failed (thrown_message m) u)
          | fetch_response false m _ =>
              ([c1; c2],
               failed (match m with
                       | Some (c :: s) => c :: s
                       | _ => js "Failed to update the form with items and settings."
                       end) u)
          | fetch_response true _ _ =>
              ([c1; c2], {| status := success; error_ := None;
                            formUrl := Some (responderUri d) |})
          end
      end
  end.

End GoogleFormModal.

(* ===================================================================== *)
(** ** components/InputPanel: file ingestion *)
(* ===================================================================== *)

Module InputPanel.

(** A thrown value: an instance of [Error] with its message, or not. *)
Inductive exn : Type :=
| Error_ (message : jsstring)
| NotAnError.

(** A page of a PDF document, with what the environment answers when the
    page is rendered and read by the OCR client: whether a 2d context is
    obtained, whether the rendering succeeds, and the text the OCR client
    returns ([None] when it throws). *)
Record Page := {
  strs : list jsstring;        (* [textContent.items], their [str] *)
  height : Q;                  (* of the viewport at scale 1.0 *)
  context : bool;
  render : bool;
  ocr : option jsstring
}.

(** A file, with what reading it in each format gives.  A page that
    cannot be loaded or whose text content cannot be read is an [inl]. *)
Record File := {
  name : jsstring;
  type : jsstring;
  pdf : exn + list (exn + Page);
  docx : exn + jsstring;
  text : exn + jsstring
}.

(** The state of the panel. *)
Record panel := {
  inputText : jsstring;
  isProcessingFile : bool;
  processingMessage : jsstring;
  fileProcessingError : option jsstring
}.

Definition setInputText (v : jsstring) (u : panel) : panel :=
  {| inputText := v; isProcessingFile := isProcessingFile u;
     processingMessage := processingMessage u;
     fileProcessingError := fileProcessingError u |}.
Definition setIsProcessingFile (v : bool) (u : panel) : panel :=
  {| inputText := inputText u; isProcessingFile := v;
     processingMessage := processingMessage u;
     fileProcessingError := fileProcessingError u |}.
Definition setProcessingMessage (v : jsstring) (u : panel) : panel :=
  {| inputText := inputText u; isProcessingFile := isProcessingFile u;
     processingMessage := v;
     fileProcessingError := fileProcessingError u |}.
Definition setFileProcessingError (v : option jsstring) (u : panel) : panel :=
  {| inputText := inputText u; isProcessingFile := isProcessingFile u;
     processingMessage := processingMessage u;
     fileProcessingError := v |}.

(** The panel and the pages handed to [extractTextFromImage] so far, the
    latest first. *)
Definition world : Type := panel * list nat.

Definition natToString (n : nat) : jsstring :=
  GoogleFormModal.numberToString (Z.of_nat n).

(** The heuristic of line 47. *)
Definition needsOcr (pageText : jsstring) (p : Page) : bool :=
  Nat.ltb (List.length (trim pageText)) 50 && negb (Qle_bool (height p) 100%Q).

(** The inner [try] block, lines 50 to 63: the text to append, or a
    throw; the OCR client is called only when the context is obtained and
    the page is rendered. *)
Definition ocrPage (i : nat) (p : Page) (w : world) : option jsstring * world :=
  if negb (context p) then (None, w)
  else if negb (render p) then (None, w)
  else (ocr p, (fst w, i :: snd w)).

(** The body of the loop for page [i]. *)
Definition processPage (i numPages : nat) (pg : exn + Page)
    (fullText : jsstring) (w : world) : (exn + jsstring) * world :=
  let w := (setProcessingMessage
              (js "Processing page " ++ natToString i ++ js " of "
                 ++ natToString numPages ++ js "...") (fst w), snd w) in
  match pg with
  | inl e => (inl e, w)
  | inr p =>
      let pageText := join (js " ") (strs p) in
      if needsOcr pageText p then
        let w := (setProcessingMessage
                    (js "Image detected on page " ++ natToString i
                       ++ js ". Running OCR...") (fst w), snd w) in
        match ocrPage i p w with
        | (Some ocrText, w) => (inr (fullText ++ ocrText ++ [10; 10]%N), w)
        | (None, w) =>
            (inr (fullText ++ pageText ++ [10; 10]%N),
             (setFileProcessingError
                (Some (js "Could not read text from an image on page "
                         ++ natToString i
                         ++ js ". The result might be incomplete.")) (fst w),
              snd w))
        end
      else (inr (fullText ++ pageText ++ [10; 10]%N), w)
  end.

(** The [for] loop of lines 40 to 72, from page [i] on. *)
Fixpoint processPages (i numPages : nat) (pages : list (exn + Page))
    (fullText : jsstring) (w : world) : (exn + jsstring) * world :=
  match pages with
  | [] => (inr fullText, w)
  | pg :: rest =>
      match processPage i numPages pg fullText w with
      | (inr fullText, w) => processPages (S i) numPages rest fullText w
      | (inl e, w) => (inl e, w)
      end
  end.

Definition UNSUPPORTED : jsstring :=
  js "Unsupported file type. Please upload a PDF, DOCX, TXT, or MD file.".
Definition DOCX_TYPE : jsstring :=
  js "application/vnd.openxmlformats-officedocument.wordprocessingml.document".

(** [file.name.split('.').pop()?.toLowerCase()] *)
Definition fileExtension (file : File) : jsstring :=
  toLowerCase (last (split 46 (name file)) []).

Definition isPdf (file : File) : bool :=
  eqs (fileExtension file) (js "pdf") || eqs (type file) (js "application/pdf").
Definition isDocx (file : File) : bool :=
  eqs (fileExtension file) (js "docx") || eqs (type file) DOCX_TYPE.
Definition isText (file : File) : bool :=
  array_includes [js "txt"; js "md"] (fileExtension file)
  || startsWith (type file) (js "text/").

Definition setText (r : exn + jsstring) (w : world) : option exn * world :=
  match r with
  | inl e => (Some e, w)
  | inr v => (None, (setInputText v (fst w), snd w))
  end.

(** The [try] block of [processFile]: [Some e] when [e] is thrown. *)
Definition processFile_try (file : File) (w : world) : option exn * world :=
  if isPdf file then
    let w := (setProcessingMessage (js "Loading PDF...") (fst w), snd w) in
    match pdf file with
    | inl e => (Some e, w)
    | inr pages =>
        match processPages 1 (List.length pages) pages [] w with
        | (inr fullText, w) => setText (inr (trim fullText)) w
        | (inl e, w) => (Some e, w)
        end
    end
  else if isDocx file then
    setText (docx file)
      (setProcessingMessage (js "Extracting text from DOCX...") (fst w), snd w)
  else if isText file then
    setText (text file)
      (setProcessingMessage (js "Reading text file...") (fst w), snd w)
  else (Some (Error_ UNSUPPORTED), w).

Definition processFile (file : File) (w : world) : world :=
  let u := setInputText []
             (setFileProcessingError None (setIsProcessingFile true (fst w))) in
  let (thrown, w) := processFile_try file (u, snd w) in
  let u := match thrown with
           | Some (Error_ message) => setFileProcessingError (Some message) (fst w)
           | Some NotAnError =>
               setFileProcessingError
                 (Some (js "An unknown error occurred while reading the file."))
                 (fst w)
           | None => fst w
           end in
  (setIsProcessingFile false u, snd w).

End InputPanel.

(* ===================================================================== *)
(** ** components/GoogleFormModal: signing in *)
(* ===================================================================== *)

Module SignIn.
Import GoogleFormModal.

(** What the token client does after [requestAccessToken]: it calls
    [callback] with a token response, whose [access_token] may be
    missing, or [error_callback] with an error, whose [message] may be
    missing, or it has called neither yet. *)
Inductive signIn : Type :=
| callback (access_token : option jsstring)
| error_callback (message : option jsstring)
| waiting.

Definition NOT_READY : jsstring :=
  js "Authentication libraries are not ready. Please try again in a moment.".
Definition NO_TOKEN : jsstring :=
  js "Authentication failed. No access token received.".
Definition SIGN_IN_CLOSED : jsstring :=
  js "The sign-in process was closed or failed.".

Definition nonEmpty (s : option jsstring) : option jsstring :=
  match s with
  | Some (c :: r) => Some (c :: r)
  | _ => None
  end.

(** [handleAuthAndCreate], lines 272 to 299, with the callbacks of the
    token client run: the calls of the Forms API and the state of the
    modal. *)
Definition handleAuthAndCreate (isGsiLoaded : bool)
    (CLIENT_ID : option jsstring) (s : signIn) (form : Form)
    (createResponse : fetched createData) (batchUpdateResponse : fetched unit)
    (u : modal) : list call * modal :=
  match isGsiLoaded, nonEmpty CLIENT_ID with
  | true, Some _ =>
      let u := {| status := authenticating; error_ := error_ u;
                  formUrl := formUrl u |} in
      match s with
      | callback tokenResponse =>
          match nonEmpty tokenResponse with
          | Some accessToken =>
              createForm form accessToken createResponse batchUpdateResponse u
          | None => ([], failed NO_TOKEN u)
          end
      | error_callback message =>
          ([], failed (js "Authentication error: "
                         ++ match nonEmpty message with
                            | Some m => m
                            | None => SIGN_IN_CLOSED
                            end) u)
      | waiting => ([], u)
      end
  | _, _ => ([], failed NOT_READY u)
  end.

(** [handleTryAgain] *)
Definition handleTryAgain (u : modal) : modal :=
  {| status := idle; error_ := None; formUrl := formUrl u |}.

End SignIn.

(* ===================================================================== *)
(** ** App: the generation cycle *)
(* ===================================================================== *)

Module App.
Import Gemini.

Record app := {
  generatedForm : option json;
  isLoading : bool;
  error : option jsstring;
  isModalOpen : bool
}.

Definition NO_TEXT : jsstring :=
  js "Please provide some text or upload a file to generate a form.".

(** [handleGenerate]: [ai] is what the model answers to the prompt made
    of a text; the result is the state of the application and the texts
    sent to the model. *)
Definition handleGenerate (ai : jsstring -> upstream) (text : jsstring)
    (a : app) : app * list jsstring :=
  match trim text with
  | [] =>
      ({| generatedForm := generatedForm a; isLoading := isLoading a;
          error := Some NO_TEXT; isModalOpen := isModalOpen a |}, [])
  | _ :: _ =>
      match generateFormFromText (ai text) with
      | Returned form =>
          ({| generatedForm := Some form; isLoading := false;
              error := None; isModalOpen := isModalOpen a |}, [text])
      | GenerationError message =>
          ({| generatedForm := None; isLoading := false;
              error := Some message; isModalOpen := isModalOpen a |}, [text])
      end
  end.

(** The export dialog is rendered: [isModalOpen && generatedForm]. *)
Definition modalRendered (a : app) : bool :=
  isModalOpen a && match generatedForm a with Some _ => true | None => false end.

End App.

(* ===================================================================== *)
(** ** components/QuestionCard: the preview of an item *)
(* ===================================================================== *)

Module QuestionCard.

(** [isCorrect] of [renderInput]: the option is shown as a correct one.
    Only multiple-choice and checkbox items mark their options. *)
Definition isCorrect (item : FormItem) (option_ : jsstring) : bool :=
  match type item with
  | MULTIPLE_CHOICE =>
      match correctAnswer item with
      | Some (One s) => eqs s option_
      | _ => false
      end
  | CHECKBOXES =>
      match correctAnswer item with
      | Some (Many l) => array_includes l option_
      | _ => false
      end
  | _ => false
  end.

(** The text shown after [Correct Answer:], for the short-answer and the
    dropdown items: [hasAnswer && typeof item.correctAnswer === 'string']. *)
Definition answerShown (item : FormItem) : option jsstring :=
  match type item with
  | SHORT_ANSWER | DROPDOWN =>
      match correctAnswer item with
      | Some (One s) => Some s
      | _ => None
      end
  | _ => None
  end.

End QuestionCard.

(* ===================================================================== *)
(** ** Notions the properties are stated with *)
(* ===================================================================== *)

Module RegexSpec.
Import Regex.

Definition suffix (a b : jsstring) : Prop := exists p, b = p ++ a.

(** What follows a matcher is run on a suffix of the input of the
    matcher. *)
Definition sound (m : state -> cont -> option state) : Prop :=
  forall x k y, m x k = Some y ->
  exists x', k x' = Some y /\ suffix (rest x') (rest x).

(** The text is empty or starts with a code unit outside the class. *)
Definition headNot (p : N -> bool) (s : jsstring) : Prop :=
  match s with c :: _ => p c = false | [] => True end.

End RegexSpec.

Module GeminiSpec.
Import Gemini.
(** Whether optional white space and then a closing brace or bracket
    come next. *)
Fixpoint beforeCloser (s : jsstring) : bool :=
  match s with
  | c :: r => is_closer c || (is_space c && beforeCloser r)
  | [] => false
  end.

(** The text without the commas that stand before a closer. *)
Fixpoint strip (s : jsstring) : jsstring :=
  match s with
  | [] => []
  | c :: r => if is_comma c && beforeCloser r then strip r else c :: strip r
  end.
(** No comma of the text stands before a closer. *)
Fixpoint noTrailingComma (s : jsstring) : bool :=
  match s with
  | [] => true
  | c :: r => negb (is_comma c && beforeCloser r) && noTrailingComma r
  end.

(** [injected d t]: the text [t] is the document [d] with trailing commas
    injected, each one before a closing brace or bracket or before the
    white space that precedes it, and at most one for each closer. *)
Inductive injected : jsstring -> jsstring -> Prop :=
| injected_nil : injected [] []
| injected_keep c d t :
    injected d t -> injected (c :: d) (c :: t)
| injected_comma ws c d t :
    forallb is_space ws = true -> is_closer c = true ->
    injected d t ->
    injected (ws ++ c :: d) (44%N :: ws ++ c :: t).

(** What is left of a text after its leading word characters. *)
Fixpoint skipWord (s : jsstring) : jsstring :=
  match s with
  | c :: r => if is_word c then skipWord r else s
  | [] => []
  end.

(** The property is present and truthy. *)
Definition holds (p : property) : bool :=
  match p with
  | Value v => truthy v
  | _ => false
  end.

(** The property is present and is an array. *)
Definition holdsArray (p : property) : bool :=
  match p with
  | Value v => isArray v
  | _ => false
  end.

(** The three checks of line 293 pass. *)
Definition accepted (v : json) : bool :=
  holds (get v (js "title")) && holds (get v (js "description"))
  && holdsArray (get v (js "items")).

(** A literal in which the apostrophes stand for double quotes. *)
Definition jsq (s : string) : jsstring :=
  map (fun c => if (c =? 39)%N then 34%N else c) (js s).

(** A document with a string that holds a comma before a bracket, and
    the same document with a trailing comma injected. *)
Definition listing : jsstring := jsq "['a,]']".
Definition listingInjected : jsstring := jsq "['a,]',]".

(** A nested document over several lines, with trailing commas. *)
Definition nested : jsstring := jsq "{'items': [1, 2
 ]
}".
Definition nestedInjected : jsstring := jsq "{'items': [1, 2,
 ],
}".

(** Responses in a fence: with an empty interior, with a trailing comma
    in the interior; and a response without fence, with white space
    around it. *)
Definition fencedNothing : jsstring := js "```json
```".
Definition fencedComma : jsstring := js "```json
[1,]
```".
Definition padded : jsstring := js " [1] ".
Definition fencedQuiz : jsstring := jsq "  ```json
{'title': 'Quiz',}
```
".

(** A response with the three keys, the title empty. *)
Definition untitled : jsstring :=
  jsq "{'title': '', 'description': 'A quiz.', 'items': []}".

(** A response whose [items] is an object, not an array. *)
Definition itemsObject : jsstring :=
  jsq "{'title': 'Quiz', 'description': 'A quiz.', 'items': {'0': 1}}".

Definition wellFormed : jsstring :=
  jsq "{'title': 'Quiz', 'description': 'A quiz.', 'items': []}".

End GeminiSpec.


Module ExportSpec.
Import GoogleFormModal.

Definition isChoice (t : ItemType) : bool :=
  match t with
  | MULTIPLE_CHOICE | CHECKBOXES | DROPDOWN => true
  | _ => false
  end.

(** The points of an item are positive. *)
Definition graded (item : FormItem) : bool :=
  match points item with
  | Some p => (0 <? p)%Z
  | None => false
  end.

(** The item names a correct answer: a non-empty string, or a non-empty
    sequence. *)
Definition identifiesAnswer (item : FormItem) : bool :=
  match correctAnswer item with
  | Some (One (_ :: _)) => true
  | Some (Many (_ :: _)) => true
  | _ => false
  end.

(** A comment line of the generated script: a line of the item
    statements, indented as they are, that starts a comment. *)
Definition isCommentLine (l : jsstring) : bool := startsWith l (js "  //").

Definition commentLines (script : jsstring) : list jsstring :=
  filter isCommentLine (split 10 script).

(** The warning a script should carry for an item. *)
Definition warningOf (item : FormItem) : list jsstring :=
  match type item with
  | SHORT_ANSWER =>
      if graded item then
        [ MANUAL_STEP; MANUAL_WHY;
          match correctAnswer item with
          | Some (One (c :: s)) => SUGGESTED ++ JSON_stringify (c :: s)
          | _ => MANUAL_ENTRY
          end;
          MANUAL_END ]
      else []
  | MULTIPLE_CHOICE | CHECKBOXES | DROPDOWN =>
      if graded item && negb (identifiesAnswer item) then [AI_WARNING] else []
  | _ => []
  end.

(** The lines of the statements of an item. *)
Definition itemLines (item : FormItem) : list jsstring :=
  let title_ := JSON_stringify (title item) in
  let required_ := boolToString (is_required item) in
  let setPoints :=
    js "  item.setPoints(" ++ numberToString (points_or_0 item) ++ js ");" in
  match type item with
  | SHORT_ANSWER =>
      [ js "  var item = form.addTextItem().setTitle(" ++ title_
          ++ js ").setRequired(" ++ required_ ++ js ");" ]
      ++ (if graded item then [setPoints; []] else [])
      ++ warningOf item
  | PARAGRAPH =>
      [ js "  form.addParagraphTextItem().setTitle(" ++ title_
          ++ js ").setRequired(" ++ required_ ++ js ");" ]
  | MULTIPLE_CHOICE | DROPDOWN | CHECKBOXES =>
      [ js "  var item = form." ++ choiceMethod (type item)
          ++ js "().setTitle(" ++ title_
          ++ js ").setRequired(" ++ required_ ++ js ");";
        js "  item.setChoices(["
          ++ join (js ", ")
               (map (fun option_ =>
                       js "item.createChoice(" ++ JSON_stringify option_
                         ++ js ", " ++ boolToString (isCorrect item option_)
                         ++ js ")")
                    (match options item with Some l => l | None => [] end))
          ++ js "]);" ]
      ++ (if graded item then [setPoints] else [])
      ++ warningOf item
  | SECTION_HEADER =>
      [ js "  form.addSectionHeaderItem().setTitle(" ++ title_
          ++ js ").setHelpText("
          ++ JSON_stringify (match description item with
                             | Some d => d
                             | None => []
                             end)
          ++ js ");" ]
  end.

(** The lines of the statements of the items, a blank line between two
    items. *)
Fixpoint itemsLines (l : list FormItem) : list jsstring :=
  match l with
  | [] => [[]]
  | [a] => itemLines a
  | a :: r => itemLines a ++ [[]] ++ itemsLines r
  end.

Definition noLineFeed (s : jsstring) : bool :=
  forallb (fun c => negb (c =? 10)%N) s.

(** The grading block of the request made for an item, if any. *)
Definition requestGrading (r : option Request) : option Grading :=
  match r with
  | Some (createItem c) =>
      match ci_body c with
      | questionItem q => grading q
      | textItem => None
      end
  | _ => None
  end.

(** [correctAnswer] as a sequence: a single string is wrapped. *)
Definition answersOf (a : answer) : list jsstring :=
  match a with
  | One s => [s]
  | Many l => l
  end.


(** Items and forms the properties are tried on. *)
Definition question (t : ItemType) (title_ : string)
    (options_ : option (list jsstring)) (points_ : option Z)
    (answer_ : option answer) : FormItem :=
  {| title := js title_; description := None; type := t;
     options := options_; points := points_; correctAnswer := answer_;
     required := Some true |}.

Definition capital : FormItem :=
  question SHORT_ANSWER "What is the capital of Japan?" None (Some 1%Z)
    (Some (One (js "Tokyo"))).
Definition capitalEmpty : FormItem :=
  question SHORT_ANSWER "What is the capital of Japan?" None (Some 1%Z)
    (Some (One [])).
Definition capitalMany : FormItem :=
  question SHORT_ANSWER "What is the capital of Japan?" None (Some 1%Z)
    (Some (Many [js "Tokyo"])).
Definition thoughts : FormItem :=
  question PARAGRAPH "What are your thoughts on geography?" None (Some 1%Z)
    (Some (One (js "None"))).
Definition continents : FormItem :=
  question CHECKBOXES "Which two of the following are continents?"
    (Some [js "Asia"; js "Pacific"; js "Africa"]) (Some 1%Z)
    (Some (Many [js "Asia"; js "Africa"])).

Definition quiz (l : list FormItem) : Form :=
  {| form_title := js "Geography Quiz";
     form_description := js "A quiz about world geography.";
     items := l |}.

End ExportSpec.

Module IngestionSpec.
Import InputPanel.

(** The text of a page as [processFile] builds it. *)
Definition pageText (p : Page) : jsstring := join (js " ") (strs p).

(** The OCR client is reached for the page: the heuristic holds, a 2d
    context is obtained and the page is rendered. *)
Definition ocrDue (p : Page) : bool :=
  needsOcr (pageText p) p && context p && render p.

(** The numbers of the pages, counted from [i], for which the OCR client
    is reached. *)
Fixpoint dueFrom (i : nat) (pages : list Page) : list nat :=
  match pages with
  | [] => []
  | p :: r => (if ocrDue p then [i] else []) ++ dueFrom (S i) r
  end.

(** The file is of none of the supported formats, by its extension and
    by its declared content type. *)
Definition unsupported (file : File) : bool :=
  negb (array_includes [js "pdf"; js "docx"; js "txt"; js "md"]
          (fileExtension file))
  && negb (eqs (type file) (js "application/pdf"))
  && negb (eqs (type file) DOCX_TYPE)
  && negb (startsWith (type file) (js "text/")).

(** Files, pages and panels the properties are tried on. *)
Definition scanned (s : string) (h : Q) (context_ render_ : bool) : Page :=
  {| strs := [js s]; height := h; context := context_; render := render_;
     ocr := Some (js "Text read by the OCR client.") |}.

Definition fiftySpaces : string :=
  "                                                  ".

Definition document (name_ type_ : string) (pages : list Page) : File :=
  {| name := js name_; type := js type_;
     pdf := inr (map inr pages);
     docx := inl (Error_ (js "Not a DOCX file."));
     text := inl (Error_ (js "Not a text file.")) |}.

Definition drafting : panel :=
  {| inputText := js "draft"; isProcessingFile := false;
     processingMessage := js "Processing your file...";
     fileProcessingError := None |}.

End IngestionSpec.

Module ExportSpec2.
Import GoogleFormModal ExportSpec.

(** The access token a call of the Forms API carries. *)
Definition callToken (c : call) : jsstring :=
  match c with
  | POST_forms t _ _ => t
  | POST_batchUpdate t _ _ _ => t
  end.

(** The platform answered the call with a success status. *)
Definition succeeded {A} (r : fetched A) : bool :=
  match r with
  | fetch_response true _ _ => true
  | _ => false
  end.

(** The question of the request made for an item, if it has one. *)
Definition requestQuestion (r : option Request) : option Question :=
  match r with
  | Some (createItem c) =>
      match ci_body c with
      | questionItem q => Some q
      | textItem => None
      end
  | _ => None
  end.

(** The kind of choice question of an item type. *)
Definition choiceKind (t : ItemType) : option jsstring :=
  match t with
  | MULTIPLE_CHOICE => Some (js "RADIO")
  | CHECKBOXES => Some (js "CHECKBOX")
  | DROPDOWN => Some (js "DROP_DOWN")
  | _ => None
  end.



Definition passage : FormItem :=
  {| title := js "Passage"; description := Some (js "Read this.");
     type := SECTION_HEADER; options := None; points := None;
     correctAnswer := None; required := None |}.
Definition capitalChoice : FormItem :=
  question MULTIPLE_CHOICE "What is the capital of Japan?"
    (Some [js "Tokyo"; js "Kyoto"; js "Osaka"]) (Some 1%Z)
    (Some (One (js "Tokyo"))).
Definition continentsNoKey : FormItem :=
  question CHECKBOXES "Which two of the following are continents?"
    (Some [js "Asia"; js "Pacific"; js "Africa"]) (Some 1%Z)
    (Some (Many [])).

End ExportSpec2.

Module IngestionSpec2.
Import InputPanel IngestionSpec.

(** The OCR client gave a text for the page. *)
Definition ocrRead (p : Page) : bool :=
  context p && render p && match ocr p with Some _ => true | None => false end.

(** The page is judged image-only and no text could be read from its
    image. *)
Definition ocrFailed (p : Page) : bool :=
  needsOcr (pageText p) p && negb (ocrRead p).

(** What a page adds to the text of the document. *)
Definition pageContribution (p : Page) : jsstring :=
  (if needsOcr (pageText p) p && ocrRead p
   then match ocr p with Some t => t | None => [] end
   else pageText p) ++ [10; 10]%N.

(** The message shown for what was thrown. *)
Definition shownMessage (e : exn) : jsstring :=
  match e with
  | Error_ message => message
  | NotAnError => js "An unknown error occurred while reading the file."
  end.

Definition noDot (s : jsstring) : bool := forallb (fun c => negb (c =? 46)%N) s.

Definition notes (name_ type_ : string) (content : exn + jsstring) : File :=
  {| name := js name_; type := js type_;
     pdf := inl (Error_ (js "Invalid PDF structure."));
     docx := content; text := content |}.

Definition blurred : Page :=
  {| strs := [js "Page 2"]; height := 792; context := true; render := true;
     ocr := None |}.

End IngestionSpec2.

(* ===================================================================== *)
(** ** Properties *)
(* ===================================================================== *)

Unset Implicit Arguments.

Module RegexFacts.
Import Regex RegexSpec.

Lemma succ_eqb i : Nat.eqb (S i) i = false.
Proof. apply Nat.eqb_neq; lia. Qed.

(** Unfolding a lazy star over a character class. *)
Lemma run_lazy_class (p : N -> bool) i s cs k :
  run (Star false (Chr p)) (St i s cs) k =
  orelse (k (St i s cs))
    (fun _ => match s with
              | c :: t => if p c then run (Star false (Chr p)) (St (S i) t cs) k
                          else None
              | [] => None
              end).
Proof.
  destruct s as [|c t]; cbn -[Nat.eqb]; [reflexivity|].
  destruct (k (St i (c :: t) cs)); cbn -[Nat.eqb]; [reflexivity|].
  destruct (p c); [|reflexivity].
  now rewrite succ_eqb.
Qed.

Lemma run_greedy_class (p : N -> bool) i s cs k :
  run (Star true (Chr p)) (St i s cs) k =
  orelse (match s with
          | c :: t => if p c then run (Star true (Chr p)) (St (S i) t cs) k
                      else None
          | [] => None
          end)
    (fun _ => k (St i s cs)).
Proof.
  destruct s as [|c t]; cbn -[Nat.eqb]; [reflexivity|].
  destruct (p c); [|reflexivity].
  now rewrite succ_eqb.
Qed.

Lemma run_cat r1 r2 x k : run (Cat r1 r2) x k = run r1 x (fun y => run r2 y k).
Proof. reflexivity. Qed.

Lemma run_chr p i s cs k :
  run (Chr p) (St i s cs) k =
  match s with
  | c :: t => if p c then k (St (S i) t cs) else None
  | [] => None
  end.
Proof. reflexivity. Qed.

Lemma run_ahead r x k :
  run (Ahead r) x k =
  match run r x (fun y => Some y) with
  | Some y => k (St (pos x) (rest x) (caps y))
  | None => None
  end.
Proof. reflexivity. Qed.

(** A literal matches when the input starts with it. *)
Lemma run_lit p : forall i s cs k,
  run (lit p) (St i s cs) k =
  if startsWith s p then k (St (i + List.length p) (skipn (List.length p) s) cs)
  else None.
Proof.
  induction p as [|a p IH]; intros i s cs k; cbn -[Nat.eqb].
  - now rewrite Nat.add_0_r.
  - destruct s as [|b s]; [reflexivity|].
    cbn -[Nat.eqb]. destruct (a =? b)%N; [|reflexivity].
    cbn -[Nat.eqb]. rewrite IH. now rewrite Nat.add_succ_r.
Qed.
Lemma run_bol x k : run Bol x k = if Nat.eqb (pos x) 0 then k x else None.
Proof. reflexivity. Qed.

Lemma run_eol x k :
  run Eol x k = match rest x with [] => k x | _ :: _ => None end.
Proof. reflexivity. Qed.

Lemma run_opt_greedy r x k :
  run (Opt true r) x k =
  orelse (run r x (fun y => if Nat.eqb (pos y) (pos x) then None else k y))
         (fun _ => k x).
Proof. reflexivity. Qed.

Lemma run_group i r x k :
  run (Group i r) x k =
  run r (St (pos x) (rest x) (uncapture i (caps x)))
    (fun y => k (St (pos y) (rest y)
                    ((i, firstn (pos y - pos x) (rest x)) :: caps y))).
Proof. reflexivity. Qed.

(** A greedy star over a class commits to the longest run when what
    follows succeeds there. *)
Lemma greedy_commit (p : N -> bool) k y : forall pre r i cs,
  forallb p pre = true ->
  match r with c :: _ => p c = false | [] => True end ->
  k (St (i + List.length pre) r cs) = Some y ->
  run (Star true (Chr p)) (St i (pre ++ r) cs) k = Some y.
Proof.
  induction pre as [|a pre IH]; intros r i cs Hpre Hr Hk;
    rewrite run_greedy_class.
  - rewrite Nat.add_0_r in Hk. cbn [app].
    destruct r as [|c t]; [exact Hk|]. now rewrite Hr.
  - cbn in Hpre. apply andb_prop in Hpre as [Ha Hpre].
    cbn [app]. rewrite Ha, (IH r (S i) cs Hpre Hr); [reflexivity|].
    cbn [List.length] in Hk. now rewrite Nat.add_succ_r in Hk.
Qed.

(** A lazy star over a class stops at the first place where what follows
    succeeds. *)
Lemma lazy_first (p : N -> bool) k y : forall pre r i cs,
  forallb p pre = true ->
  (forall n, n < List.length pre ->
     k (St (i + n) (skipn n pre ++ r) cs) = None) ->
  k (St (i + List.length pre) r cs) = Some y ->
  run (Star false (Chr p)) (St i (pre ++ r) cs) k = Some y.
Proof.
  induction pre as [|a pre IH]; intros r i cs Hpre Hn Hk;
    rewrite run_lazy_class.
  - rewrite Nat.add_0_r in Hk. cbn [app]. now rewrite Hk.
  - cbn in Hpre. apply andb_prop in Hpre as [Ha Hpre].
    pose proof (Hn 0 ltac:(cbn; lia)) as H0.
    rewrite Nat.add_0_r in H0. cbn [skipn] in H0. rewrite H0.
    cbn [orelse app]. rewrite Ha. apply IH; [assumption| |].
    + intros n Hlt. specialize (Hn (S n) ltac:(cbn; lia)).
      now rewrite Nat.add_succ_r in Hn.
    + cbn [List.length] in Hk. now rewrite Nat.add_succ_r in Hk.
Qed.

Lemma suffix_refl a : suffix a a.
Proof. now exists []. Qed.

Lemma suffix_trans a b c : suffix a b -> suffix b c -> suffix a c.
Proof. intros [p ->] [q ->]. exists (q ++ p). now rewrite app_assoc. Qed.

Lemma suffix_cons a c b : suffix a b -> suffix a (c :: b).
Proof. intros [p ->]. now exists (c :: p). Qed.

Lemma star_sound m greedy k : sound m ->
  forall n x y, star m greedy k n x = Some y ->
  exists x', k x' = Some y /\ suffix (rest x') (rest x).
Proof.
  intros Hm. induction n as [|n IH]; intros x y H.
  - cbn in H. destruct greedy; cbn in H.
    + exists x. split; [exact H|apply suffix_refl].
    + unfold orelse in H. destruct (k x) eqn:E; [|discriminate].
      exists x. split; [congruence|apply suffix_refl].
  - cbn [star] in H.
    assert (m x (fun y0 => if Nat.eqb (pos y0) (pos x) then None
                           else star m greedy k n y0) = Some y ->
            exists x', k x' = Some y /\ suffix (rest x') (rest x)) as Hiter.
    { intros Hi. apply Hm in Hi as (x1 & H1 & S1).
      destruct (Nat.eqb (pos x1) (pos x)); [discriminate|].
      apply IH in H1 as (x2 & H2 & S2).
      exists x2. split; [exact H2|]. eapply suffix_trans; eassumption. }
    destruct greedy; unfold orelse in H.
    + destruct (m x _) eqn:E.
      * injection H as ->. now apply Hiter.
      * exists x. split; [exact H|apply suffix_refl].
    + destruct (k x) eqn:E.
      * exists x. split; [congruence|apply suffix_refl].
      * now apply Hiter.
Qed.

(** Whatever a pattern matches, what follows is run on a suffix of the
    input. *)
Lemma run_sound : forall r, sound (run r).
Proof.
  induction r as [|p|r1 IH1 r2 IH2|r1 IH1 r2 IH2|g r IH|g r IH|i r IH|r IH| |];
    intros x k y H; cbn [run] in H.
  - exists x. split; [exact H|apply suffix_refl].
  - destruct (rest x) as [|c t] eqn:E; [discriminate|].
    destruct (p c); [|discriminate].
    eexists. split; [exact H|]. cbn. exists [c]. reflexivity.
  - apply IH1 in H as (x1 & H1 & S1). apply IH2 in H1 as (x2 & H2 & S2).
    exists x2. split; [exact H2|]. eapply suffix_trans; eassumption.
  - unfold orelse in H. destruct (run r1 x k) eqn:E.
    + injection H as ->. now apply IH1.
    + now apply IH2.
  - eapply star_sound; eassumption.
  - assert (run r x (fun y0 => if Nat.eqb (pos y0) (pos x) then None else k y0)
              = Some y ->
            exists x', k x' = Some y /\ suffix (rest x') (rest x)) as Hiter.
    { intros Hi. apply IH in Hi as (x1 & H1 & S1).
      destruct (Nat.eqb (pos x1) (pos x)); [discriminate|].
      exists x1. now split. }
    destruct g; unfold orelse in H.
    + destruct (run r x _) eqn:E.
      * injection H as ->. now apply Hiter.
      * exists x. split; [exact H|apply suffix_refl].
    + destruct (k x) eqn:E.
      * exists x. split; [congruence|apply suffix_refl].
      * now apply Hiter.
  - apply IH in H as (x1 & H1 & S1).
    eexists. split; [exact H1|exact S1].
  - destruct (run r x (fun y0 => Some y0)); [|discriminate].
    eexists. split; [exact H|apply suffix_refl].
  - destruct (Nat.eqb (pos x) 0); [|discriminate].
    exists x. split; [exact H|apply suffix_refl].
  - destruct (rest x) eqn:E; [|discriminate].
    exists x. split; [exact H|]. rewrite E. apply suffix_refl.
Qed.
End RegexFacts.

Module SanitizerFacts.
Import Regex RegexFacts Gemini GeminiSpec.

Lemma lookahead_run : forall s i cs,
  run (Cat (Star false (Chr is_space)) (Chr is_closer)) (St i s cs)
      (fun y => Some y) <> None <-> beforeCloser s = true.
Proof.
  induction s as [|c t IH]; intros i cs; rewrite run_cat, run_lazy_class, run_chr.
  - cbn. split; [congruence|discriminate].
  - cbn [beforeCloser].
    destruct (is_closer c); cbn [orelse orb];
      [split; [intros _; reflexivity|intros _; discriminate]|].
    destruct (is_space c); cbn [andb]; [|split; [congruence|discriminate]].
    rewrite <- run_cat. apply IH.
Qed.

Lemma exec_trailingComma i c t :
  exists y, exec_at trailingComma i (c :: t) =
  if is_comma c && beforeCloser t then Some (St (S i) t y) else None.
Proof.
  unfold exec_at, trailingComma. rewrite run_cat, run_chr.
  destruct (is_comma c); cbn [andb]; [|now exists []].
  rewrite run_ahead.
  pose proof (lookahead_run t (S i) []) as H.
  destruct (run _ _ _) as [y|].
  - exists (caps y). cbn. destruct (beforeCloser t); [reflexivity|].
    destruct H as [H _]. specialize (H ltac:(discriminate)). discriminate.
  - exists []. destruct (beforeCloser t); [|reflexivity].
    exfalso. apply H; reflexivity.
Qed.

Lemma exec_trailingComma_nil i : exec_at trailingComma i [] = None.
Proof. reflexivity. Qed.

Lemma replace_strip : forall s i,
  replace_from trailingComma [] i 0 s = strip s.
Proof.
  induction s as [|c t IH]; intros i.
  - reflexivity.
  - unfold replace_from; fold replace_from.
    destruct (exec_trailingComma i c t) as [y ->].
    cbn [strip].
    destruct (is_comma c && beforeCloser t).
    + cbn [pos]. replace (S i - i) with 1 by lia. cbn [app]. apply IH.
    + f_equal. apply IH.
Qed.

(** The sanitizer removes exactly the commas that optional white space
    and a closing brace or bracket follow. *)
Lemma sanitize_strip s : sanitizeJsonString s = strip s.
Proof. apply replace_strip. Qed.
End SanitizerFacts.

Module TrimFacts.

Lemma trimStart_split : forall s,
  exists w, forallb is_space w = true /\ s = w ++ trimStart s.
Proof.
  induction s as [|c s (w & Hw & IH)]; [now exists []|].
  cbn [trimStart]. destruct (is_space c) eqn:Hc.
  - exists (c :: w). cbn. rewrite Hc, Hw. split; [reflexivity|]. now f_equal.
  - now exists [].
Qed.

Lemma trimStart_head s :
  match trimStart s with c :: _ => is_space c = false | [] => True end.
Proof.
  induction s as [|c s IH]; [exact I|].
  cbn [trimStart]. destruct (is_space c) eqn:Hc; [exact IH|exact Hc].
Qed.

Lemma trimStart_spaces : forall w r,
  forallb is_space w = true -> trimStart (w ++ r) = trimStart r.
Proof.
  induction w as [|c w IH]; intros r H; [reflexivity|].
  cbn in H. apply andb_prop in H as [Hc H]. cbn. rewrite Hc. now apply IH.
Qed.

Lemma trimStart_fixed c s : is_space c = false -> trimStart (c :: s) = c :: s.
Proof. intros H. cbn. now rewrite H. Qed.

(** Trimming at the start stops at a code unit that is no white space,
    at the latest. *)
Lemma trimStart_keeps z q : forall p,
  is_space z = false -> exists p', trimStart (p ++ z :: q) = p' ++ z :: q.
Proof.
  induction p as [|c p IH]; intros Hz.
  - exists []. now apply trimStart_fixed.
  - cbn [app trimStart]. destruct (is_space c); [now apply IH|].
    now exists (c :: p).
Qed.

Lemma trimEnd_split s :
  exists w, forallb is_space w = true /\ s = trimEnd s ++ w.
Proof.
  unfold trimEnd. destruct (trimStart_split (rev s)) as (w & Hw & E).
  exists (rev w). split.
  - rewrite forallb_forall in *. intros x Hx. apply Hw. now apply in_rev.
  - rewrite <- rev_app_distr, <- E. symmetry. apply rev_involutive.
Qed.

Lemma trimEnd_last s :
  trimEnd s = [] \/ exists a z, trimEnd s = a ++ [z] /\ is_space z = false.
Proof.
  unfold trimEnd. pose proof (trimStart_head (rev s)) as H.
  destruct (trimStart (rev s)) as [|z t]; [now left|].
  right. exists (rev t), z. now split.
Qed.

Lemma trimEnd_fixed a z : is_space z = false -> trimEnd (a ++ [z]) = a ++ [z].
Proof.
  intros H. unfold trimEnd. rewrite rev_app_distr. cbn [rev app].
  rewrite trimStart_fixed by exact H.
  cbn [rev]. now rewrite rev_involutive.
Qed.

Lemma trimEnd_cons c s :
  is_space c = false -> exists t, trimEnd (c :: s) = c :: t.
Proof.
  intros Hc. unfold trimEnd. cbn [rev].
  destruct (trimStart_keeps c [] (rev s) Hc) as (p' & ->).
  rewrite rev_app_distr. cbn. eauto.
Qed.

(** What [trim] gives is empty, or starts and ends with code units that
    are no white space; so trimming again changes nothing. *)
Lemma trim_idem s : trim (trim s) = trim s.
Proof.
  unfold trim at 1.
  assert (trimStart (trim s) = trim s) as ->.
  { unfold trim. pose proof (trimStart_head s) as H.
    destruct (trimStart s) as [|c t]; [reflexivity|].
    destruct (trimEnd_cons c t H) as (t' & ->). now apply trimStart_fixed. }
  unfold trim. destruct (trimEnd_last (trimStart s)) as [->|(a & z & -> & Hz)];
    [reflexivity|now apply trimEnd_fixed].
Qed.
End TrimFacts.

Module FenceFacts.
Import Regex RegexSpec RegexFacts Gemini GeminiSpec TrimFacts.

Lemma eqs_true a b : eqs a b = true <-> a = b.
Proof. unfold eqs. destruct (list_eq_dec N.eq_dec a b); split; congruence. Qed.

Lemma eqs_false a b : eqs a b = false <-> a <> b.
Proof. unfold eqs. destruct (list_eq_dec N.eq_dec a b); split; congruence. Qed.

Lemma startsWith_app : forall p s,
  startsWith s p = true -> s = p ++ skipn (List.length p) s.
Proof.
  induction p as [|a p IH]; intros s H; [reflexivity|].
  destruct s as [|b s]; [discriminate|].
  cbn in H. apply andb_prop in H as [Hab H].
  apply N.eqb_eq in Hab as ->. cbn. f_equal. now apply IH.
Qed.

Lemma startsWith_prefix : forall p t, startsWith (p ++ t) p = true.
Proof.
  induction p as [|a p IH]; intros t; [reflexivity|].
  cbn. now rewrite N.eqb_refl, IH.
Qed.

Lemma orelse_none a : orelse a (fun _ => None) = a.
Proof. now destruct a. Qed.

Lemma orelse_same a : orelse a (fun _ => a) = a.
Proof. now destruct a. Qed.

(** The closing fence and the end of the input. *)
Lemma fence_eol i s cs k :
  run (Cat (lit fence) Eol) (St i s cs) k =
  if eqs s fence then k (St (i + 3) [] cs) else None.
Proof.
  rewrite run_cat, run_lit.
  destruct (eqs s fence) eqn:E.
  - apply eqs_true in E as ->. reflexivity.
  - destruct (startsWith s fence) eqn:Hs; [|reflexivity].
    apply startsWith_app in Hs. rewrite run_eol. cbn [rest].
    destruct (skipn (List.length fence) s) eqn:Ht; [|reflexivity].
    rewrite app_nil_r in Hs. apply eqs_false in E. congruence.
Qed.

Lemma space_not_backtick c : is_space c = true -> c <> 96%N.
Proof. intros H ->. discriminate. Qed.

(** White space, the closing fence and the end of the input: the rest of
    the input, its leading white space apart, is the fence. *)
Lemma tail1_run k : forall s i cs,
  run (Cat (Star true (Chr is_space)) (Cat (lit fence) Eol)) (St i s cs) k =
  if eqs (trimStart s) fence then k (St (i + List.length s) [] cs) else None.
Proof.
  induction s as [|c t IH]; intros i cs; rewrite run_cat, run_greedy_class.
  - cbn [orelse]. rewrite fence_eol. reflexivity.
  - cbn [trimStart]. destruct (is_space c) eqn:Hc.
    + rewrite <- run_cat, IH, fence_eol.
      replace (eqs (c :: t) fence) with false.
      * rewrite orelse_none. cbn [List.length]. now rewrite Nat.add_succ_r.
      * symmetry. apply eqs_false. intros [= -> _]. discriminate.
    + cbn [orelse]. rewrite fence_eol.
      destruct (eqs (c :: t) fence) eqn:E; [|reflexivity].
      apply eqs_true in E. now rewrite E.
Qed.

(** The same after an optional line feed. *)
Lemma tail_run k s i cs :
  run (Cat (Opt true (lit1 10))
         (Cat (Star true (Chr is_space)) (Cat (lit fence) Eol)))
      (St i s cs) k =
  if eqs (trimStart s) fence then k (St (i + List.length s) [] cs) else None.
Proof.
  rewrite run_cat, run_opt_greedy. unfold lit1. rewrite run_chr.
  cbn [pos]. rewrite tail1_run.
  destruct s as [|c t]; [reflexivity|].
  destruct (N.eqb_spec 10 c) as [<-|Hc]; [|reflexivity].
  rewrite succ_eqb, tail1_run.
  change (trimStart (10%N :: t)) with (trimStart t).
  cbn [List.length]. rewrite Nat.add_succ_r. cbn [Nat.add]. apply orelse_same.
Qed.

Lemma forallb_any s : forallb any s = true.
Proof. now induction s. Qed.

Lemma length_neq_fence (p q : jsstring) z :
  p ++ z :: q ++ fence <> fence.
Proof.
  intros H. apply (f_equal (@List.length N)) in H.
  rewrite length_app in H. cbn [List.length] in H.
  rewrite length_app in H. cbn in H. lia.
Qed.

(** Group 2, lazy, followed by the tail: it captures what stands before
    the white space that precedes the closing fence. *)
Lemma group2_run body w i cs :
  forallb is_space w = true ->
  (body = [] \/ exists a z, body = a ++ [z] /\ is_space z = false) ->
  run (Cat (Group 2 (Star false (Chr any)))
         (Cat (Opt true (lit1 10))
            (Cat (Star true (Chr is_space)) (Cat (lit fence) Eol))))
      (St i (body ++ w ++ fence) cs) (fun y => Some y) =
  Some (St (i + List.length (body ++ w ++ fence)) []
           ((2, body) :: uncapture 2 cs)).
Proof.
  intros Hw Hbody. rewrite run_cat, run_group. cbn [pos rest caps].
  apply lazy_first.
  - apply forallb_any.
  - intros n Hn. cbn [pos rest caps]. rewrite tail_run.
    destruct Hbody as [->|(a & z & -> & Hz)]; [cbn in Hn; lia|].
    rewrite length_app in Hn. cbn in Hn.
    rewrite skipn_app. replace (n - List.length a) with 0 by lia.
    cbn [skipn]. rewrite <- app_assoc. cbn [app].
    destruct (trimStart_keeps z (w ++ fence) (skipn n a) Hz) as (p' & ->).
    replace (eqs (p' ++ z :: w ++ fence) fence) with false; [reflexivity|].
    symmetry. apply eqs_false, length_neq_fence.
  - cbn [pos rest caps]. rewrite tail_run.
    rewrite (trimStart_spaces w fence Hw).
    change (eqs (trimStart fence) fence) with true. cbn iota.
    f_equal. f_equal.
    + rewrite !length_app. lia.
    + replace (i + List.length body - i) with (List.length body) by lia.
      f_equal. f_equal. rewrite firstn_app, Nat.sub_diag. cbn [firstn].
      now rewrite firstn_all, app_nil_r.
Qed.

Lemma headNot_fence p s :
  p 96%N = false -> headNot p s -> headNot p (s ++ fence).
Proof. intros Hp. destruct s; [exact (fun _ => Hp)|exact (fun H => H)]. Qed.

Lemma skipWord_split : forall s,
  exists tag, forallb is_word tag = true /\ s = tag ++ skipWord s.
Proof.
  induction s as [|c s (tag & Ht & IH)]; [now exists []|].
  cbn [skipWord]. destruct (is_word c) eqn:Hc.
  - exists (c :: tag). cbn. rewrite Hc, Ht. split; [reflexivity|]. now f_equal.
  - now exists [].
Qed.

Lemma skipWord_head s : headNot is_word (skipWord s).
Proof.
  induction s as [|c s IH]; [exact I|].
  cbn [skipWord]. destruct (is_word c) eqn:Hc; [exact IH|exact Hc].
Qed.

(** From the white space after the tag to the end of the pattern. *)
Lemma after_tag_run m i cs :
  run (Cat (Star true (Chr is_space))
         (Cat (Opt true (lit1 10))
            (Cat (Group 2 (Star false (Chr any)))
               (Cat (Opt true (lit1 10))
                  (Cat (Star true (Chr is_space)) (Cat (lit fence) Eol))))))
      (St i (m ++ fence) cs) (fun y => Some y) =
  Some (St (i + List.length (m ++ fence)) [] ((2, trim m) :: uncapture 2 cs)).
Proof.
  destruct (trimStart_split m) as (ws & Hws & Em).
  destruct (trimEnd_split (trimStart m)) as (w & Hw & Ex).
  fold (trim m) in Ex.
  pose proof (f_equal (@List.length N) Em) as Lm.
  pose proof (f_equal (@List.length N) Ex) as Lx.
  rewrite length_app in Lm, Lx.
  assert (headNot is_space (trimStart m ++ fence)) as Hh
    by (apply headNot_fence; [reflexivity|apply trimStart_head]).
  rewrite run_cat. rewrite Em at 1. rewrite <- app_assoc.
  apply greedy_commit; [exact Hws|exact Hh|].
  rewrite run_cat, run_opt_greedy.
  replace (run (lit1 10) _ _) with (@None state).
  2:{ unfold lit1. rewrite run_chr. unfold headNot in Hh.
      destruct (trimStart m ++ fence) as [|c t]; [reflexivity|].
      destruct (N.eqb_spec 10 c) as [<-|]; [discriminate|reflexivity]. }
  cbn [orelse]. rewrite Ex at 1. rewrite <- app_assoc.
  rewrite group2_run; [|exact Hw|apply trimEnd_last].
  f_equal. f_equal.
  rewrite !length_app. lia.
Qed.

(** From the tag to the end of the pattern: group 2 captures the middle
    part without its leading word characters, trimmed. *)
Lemma from_tag_run m i cs :
  exists y,
    run (Cat (Opt true (Group 1 (Star true (Chr is_word))))
           (Cat (Star true (Chr is_space))
              (Cat (Opt true (lit1 10))
                 (Cat (Group 2 (Star false (Chr any)))
                    (Cat (Opt true (lit1 10))
                       (Cat (Star true (Chr is_space))
                          (Cat (lit fence) Eol)))))))
        (St i (m ++ fence) cs) (fun y => Some y) = Some y
    /\ capture 2 (caps y) = Some (trim (skipWord m)).
Proof.
  destruct (skipWord_split m) as (tag & Htag & Em).
  pose proof (skipWord_head m) as Hh0.
  remember (skipWord m) as m' eqn:E'. clear E'. subst m.
  assert (headNot is_word (m' ++ fence)) as Hh
    by (apply headNot_fence; [reflexivity|exact Hh0]).
  rewrite run_cat, run_opt_greedy, run_group. cbn [pos rest caps].
  rewrite <- app_assoc.
  destruct tag as [|a tag].
  - cbn [app]. rewrite run_greedy_class.
    replace (match m' ++ fence with
             | [] => None
             | c :: t => if is_word c then _ else None
             end) with (@None state)
      by (unfold headNot in Hh; destruct (m' ++ fence); [reflexivity|now rewrite Hh]).
    cbn [orelse pos]. rewrite Nat.eqb_refl. cbn [orelse].
    rewrite after_tag_run. eexists. split; [reflexivity|].
    cbn. reflexivity.
  - erewrite greedy_commit; [| exact Htag | exact Hh |].
    2:{ cbn [pos rest caps].
        replace (Nat.eqb (i + List.length (a :: tag)) i) with false
          by (symmetry; apply Nat.eqb_neq; cbn; lia).
        apply after_tag_run. }
    cbn [orelse]. eexists. split; [reflexivity|]. cbn. reflexivity.
Qed.

Lemma search_after_start r : forall s i,
  search (Cat Bol r) (S i) s = None.
Proof. induction s as [|c s IH]; intros i; cbn; [reflexivity|apply IH]. Qed.

Lemma match_at_start r s :
  match_ (Cat Bol r) s = exec_at (Cat Bol r) 0 s.
Proof.
  unfold match_. destruct s as [|c s]; cbn [search];
    destruct (exec_at (Cat Bol r) 0 _); try reflexivity.
  apply search_after_start.
Qed.

(** On a text between two fences the pattern matches, and group 2 is the
    middle part without its leading word characters, trimmed. *)
Lemma fence_match m :
  exists y, match_ fenceRegex (fence ++ m ++ fence) = Some y
            /\ capture 2 (caps y) = Some (trim (skipWord m)).
Proof.
  unfold fenceRegex. rewrite match_at_start. unfold exec_at.
  rewrite run_cat, run_bol. cbn [pos Nat.eqb].
  rewrite run_cat, run_lit, startsWith_prefix.
  rewrite skipn_app, Nat.sub_diag, skipn_all. cbn [app skipn].
  apply from_tag_run.
Qed.

(** On any other text the pattern does not match. *)
Lemma fence_no_match s :
  (forall m, s <> fence ++ m ++ fence) -> match_ fenceRegex s = None.
Proof.
  intros Hs. unfold fenceRegex. rewrite match_at_start. unfold exec_at.
  destruct (run _ _ _) as [y|] eqn:E; [exfalso|reflexivity].
  rewrite run_cat, run_bol in E. cbn [pos Nat.eqb] in E.
  rewrite run_cat, run_lit in E.
  destruct (startsWith s fence) eqn:Hf; [|discriminate].
  apply startsWith_app in Hf.
  do 6 (rewrite run_cat in E; apply run_sound in E as (? & E & ?)).
  match goal with
  | E : run (Cat (lit fence) Eol) ?x _ = _ |- _ =>
      destruct x as [j t cs]; rewrite fence_eol in E;
      destruct (eqs t fence) eqn:Hx; [|discriminate];
      apply eqs_true in Hx; subst t
  end.
  assert (suffix fence (skipn (List.length fence) s)) as [p Hp].
  { cbn [rest] in *.
    repeat (eapply suffix_trans; [eassumption|]). apply suffix_refl. }
  apply (Hs p). rewrite Hf at 1. now rewrite Hp.
Qed.
End FenceFacts.

Module ScriptFacts.
Import GoogleFormModal ExportSpec.


Lemma split_nonempty sep s : split sep s <> [].
Proof.
  destruct s as [|c r]; cbn; [discriminate|].
  destruct (c =? sep)%N; [discriminate|].
  destruct (split sep r); discriminate.
Qed.

Lemma split_app_sep sep : forall a b,
  split sep (a ++ sep :: b) = split sep a ++ split sep b.
Proof.
  induction a as [|c a IH]; intros b; cbn.
  - now rewrite N.eqb_refl.
  - destruct (c =? sep)%N; [now rewrite IH|].
    rewrite IH. pose proof (split_nonempty sep a).
    destruct (split sep a); [congruence|reflexivity].
Qed.

Lemma split_noLineFeed s : noLineFeed s = true -> split 10 s = [s].
Proof.
  induction s as [|c r IH]; cbn; [reflexivity|].
  intros H. apply andb_prop in H as [Hc Hr].
  apply negb_true_iff in Hc. rewrite Hc, (IH Hr). reflexivity.
Qed.

Lemma noLineFeed_app a b :
  noLineFeed (a ++ b) = noLineFeed a && noLineFeed b.
Proof. apply forallb_app. Qed.

(** Joining lines with line feeds and splitting again gives the lines. *)
Lemma split_join : forall l,
  l <> [] -> forallb noLineFeed l = true -> split 10 (join nl l) = l.
Proof.
  induction l as [|a l IH]; [congruence|]. intros _ H.
  cbn in H. apply andb_prop in H as [Ha Hl].
  destruct l as [|b l]; [cbn; now apply split_noLineFeed|].
  change (join nl (a :: b :: l)) with (a ++ 10%N :: join nl (b :: l)).
  rewrite split_app_sep, (split_noLineFeed _ Ha), IH; [reflexivity|discriminate|assumption].
Qed.

Lemma join_app sep : forall a b,
  a <> [] -> b <> [] -> join sep (a ++ b) = join sep a ++ sep ++ join sep b.
Proof.
  induction a as [|x a IH]; intros b Ha Hb; [congruence|].
  destruct a as [|y a].
  - destruct b; [congruence|reflexivity].
  - change (join sep ((x :: y :: a) ++ b)) with (x ++ sep ++ join sep ((y :: a) ++ b)).
    rewrite IH by (assumption || discriminate).
    change (join sep (x :: y :: a)) with (x ++ sep ++ join sep (y :: a)).
    now rewrite <- !app_assoc.
Qed.

Lemma noLineFeed_hex d : negb (hex_digit d =? 10)%N = true.
Proof.
  unfold hex_digit. apply negb_true_iff, N.eqb_neq.
  destruct (d <? 10)%N; lia.
Qed.

Lemma noLineFeed_quote_unit c : noLineFeed (quote_unit c) = true.
Proof.
  unfold quote_unit.
  repeat match goal with
         | |- context [if ?b then _ else _] => destruct b eqn:?
         end; try reflexivity.
  - unfold unicode_escape. cbn. now rewrite !noLineFeed_hex.
  - unfold unicode_escape. cbn. now rewrite !noLineFeed_hex.
  - cbn. now rewrite Heqb1.
Qed.

Lemma noLineFeed_quote_units_aux : forall n s,
  List.length s <= n -> noLineFeed (quote_units s) = true.
Proof.
  induction n as [|n IH]; intros [|c r] Hn; try reflexivity; cbn in Hn; [lia|].
  cbn [quote_units].
  destruct (is_high_surrogate c) eqn:Hc.
  - destruct r as [|d r']; [apply noLineFeed_quote_unit|].
    destruct (is_low_surrogate d) eqn:Hd.
    + cbn. rewrite IH by (cbn in Hn; lia).
      apply andb_prop in Hc as [Hc _]. apply N.leb_le in Hc.
      apply andb_prop in Hd as [Hd _]. apply N.leb_le in Hd.
      replace (c =? 10)%N with false by (symmetry; apply N.eqb_neq; lia).
      replace (d =? 10)%N with false by (symmetry; apply N.eqb_neq; lia).
      reflexivity.
    + rewrite noLineFeed_app, noLineFeed_quote_unit, IH by lia. reflexivity.
  - rewrite noLineFeed_app, noLineFeed_quote_unit, IH by lia. reflexivity.
Qed.

(** A quoted string holds no line feed: the ones of the string are
    escaped. *)
Lemma noLineFeed_stringify s : noLineFeed (JSON_stringify s) = true.
Proof.
  unfold JSON_stringify. rewrite !noLineFeed_app.
  now rewrite (noLineFeed_quote_units_aux _ s (le_n _)).
Qed.

Lemma noLineFeed_uint d : noLineFeed (uint_units d) = true.
Proof. induction d; cbn; auto. Qed.

Lemma noLineFeed_number z : noLineFeed (numberToString z) = true.
Proof. destruct z; cbn; auto using noLineFeed_uint. Qed.

Lemma noLineFeed_bool b : noLineFeed (boolToString b) = true.
Proof. now destruct b. Qed.

Lemma noLineFeed_join sep l :
  noLineFeed sep = true -> forallb noLineFeed l = true ->
  noLineFeed (join sep l) = true.
Proof.
  intros Hs. induction l as [|a l IH]; [reflexivity|].
  cbn [forallb]. intros H. apply andb_prop in H as [Ha Hl].
  destruct l as [|b l]; [exact Ha|].
  change (join sep (a :: b :: l)) with (a ++ sep ++ join sep (b :: l)).
  now rewrite !noLineFeed_app, Ha, Hs, IH.
Qed.

Ltac no_line_feed :=
  repeat match goal with
         | |- noLineFeed (_ ++ _) = true =>
             rewrite noLineFeed_app; apply andb_true_intro; split
         | |- noLineFeed (JSON_stringify _) = true => apply noLineFeed_stringify
         | |- noLineFeed (numberToString _) = true => apply noLineFeed_number
         | |- noLineFeed (boolToString _) = true => apply noLineFeed_bool
         | |- noLineFeed (js _) = true => vm_compute; reflexivity
         | |- noLineFeed _ = true => solve [vm_compute; reflexivity]
         end.


Lemma graded_points item : (0 <? points_or_0 item)%Z = graded item.
Proof. unfold points_or_0, graded. now destruct (points item). Qed.

Lemma hasAnswerKey_identifies item : hasAnswerKey item = identifiesAnswer item.
Proof.
  unfold hasAnswerKey, identifiesAnswer.
  destruct (correctAnswer item) as [[[|c s]|[|a l]]|]; reflexivity.
Qed.

(** The statements of an item are its lines, joined by line feeds. *)
Lemma itemScript_lines item : itemScript item = join nl (itemLines item).
Proof.
  unfold itemScript, itemLines, warningOf.
  rewrite graded_points, hasAnswerKey_identifies.
  destruct (type item) eqn:Ht.
  - unfold string_answer.
    destruct (graded item); [|reflexivity].
    destruct (correctAnswer item) as [[[|c s]|l]|];
      cbn [app join nl]; rewrite <- ?app_assoc; reflexivity.
  - reflexivity.
  - destruct (graded item), (identifiesAnswer item);
      cbn [app join nl andb negb]; repeat first [rewrite <- app_assoc | progress cbn [app]]; reflexivity.
  - destruct (graded item), (identifiesAnswer item);
      cbn [app join nl andb negb]; repeat first [rewrite <- app_assoc | progress cbn [app]]; reflexivity.
  - destruct (graded item), (identifiesAnswer item);
      cbn [app join nl andb negb]; repeat first [rewrite <- app_assoc | progress cbn [app]]; reflexivity.
  - destruct (description item) as [[|c d]|]; reflexivity.
Qed.

Lemma noLineFeed_warning item : forallb noLineFeed (warningOf item) = true.
Proof.
  unfold warningOf.
  destruct (type item); try reflexivity;
    destruct (graded item); try reflexivity;
    try (destruct (identifiesAnswer item); reflexivity).
  destruct (correctAnswer item) as [[[|c s]|l]|]; try reflexivity.
  cbn [forallb]. rewrite noLineFeed_app, noLineFeed_stringify. reflexivity.
Qed.

Lemma noLineFeed_choices item l :
  noLineFeed
    (join (js ", ")
       (map (fun option_ =>
               js "item.createChoice(" ++ JSON_stringify option_
                 ++ js ", " ++ boolToString (isCorrect item option_)
                 ++ js ")") l)) = true.
Proof.
  apply noLineFeed_join; [reflexivity|].
  induction l as [|a l IH]; [reflexivity|].
  cbn [map forallb]. rewrite IH, andb_true_r. no_line_feed.
Qed.

Lemma noLineFeed_choiceMethod t : noLineFeed (choiceMethod t) = true.
Proof. now destruct t. Qed.

Lemma noLineFeed_itemLines item : forallb noLineFeed (itemLines item) = true.
Proof.
  unfold itemLines.
  destruct (type item); rewrite ?forallb_app, ?noLineFeed_warning, ?andb_true_r;
    cbn [forallb]; rewrite ?andb_true_r.
  - apply andb_true_intro; split; [no_line_feed|].
    destruct (graded item); [|reflexivity].
    cbn [forallb]. rewrite andb_true_r. no_line_feed.
  - no_line_feed.
  - apply andb_true_intro; split.
    + apply andb_true_intro; split; [no_line_feed; apply noLineFeed_choiceMethod|].
      no_line_feed. apply noLineFeed_choices.
    + destruct (graded item); [|reflexivity].
      cbn [forallb]. rewrite andb_true_r. no_line_feed.
  - apply andb_true_intro; split.
    + apply andb_true_intro; split; [no_line_feed; apply noLineFeed_choiceMethod|].
      no_line_feed. apply noLineFeed_choices.
    + destruct (graded item); [|reflexivity].
      cbn [forallb]. rewrite andb_true_r. no_line_feed.
  - apply andb_true_intro; split.
    + apply andb_true_intro; split; [no_line_feed; apply noLineFeed_choiceMethod|].
      no_line_feed. apply noLineFeed_choices.
    + destruct (graded item); [|reflexivity].
      cbn [forallb]. rewrite andb_true_r. no_line_feed.
  - no_line_feed.
Qed.

Lemma itemLines_nonempty item : itemLines item <> [].
Proof. unfold itemLines. destruct (type item); discriminate. Qed.

Lemma filter_warning item :
  filter isCommentLine (warningOf item) = warningOf item.
Proof.
  unfold warningOf.
  destruct (type item); try reflexivity;
    destruct (graded item); try reflexivity;
    try (destruct (identifiesAnswer item); reflexivity).
  destruct (correctAnswer item) as [[[|c s]|l]|]; reflexivity.
Qed.

(** The comment lines among the lines of an item are its warning. *)
Lemma filter_itemLines item :
  filter isCommentLine (itemLines item) = warningOf item.
Proof.
  unfold itemLines.
  destruct (type item) eqn:Ht; rewrite ?filter_app, ?filter_warning;
    try (destruct (graded item)); try reflexivity;
    unfold warningOf; rewrite Ht; reflexivity.
Qed.

(** The comment lines of the statements of an item. *)
Lemma commentLines_itemScript item :
  commentLines (itemScript item) = warningOf item.
Proof.
  unfold commentLines.
  rewrite itemScript_lines, split_join.
  - apply filter_itemLines.
  - apply itemLines_nonempty.
  - apply noLineFeed_itemLines.
Qed.


Lemma itemsLines_nonempty l : itemsLines l <> [].
Proof.
  destruct l as [|a [|b r]]; cbn [itemsLines]; try discriminate.
  - apply itemLines_nonempty.
  - pose proof (itemLines_nonempty a). destruct (itemLines a); [congruence|discriminate].
Qed.

Lemma formItems_lines : forall l,
  join (nl ++ nl) (map itemScript l) = join nl (itemsLines l).
Proof.
  induction l as [|a l IH]; [reflexivity|].
  destruct l as [|b r]; [apply itemScript_lines|].
  change (join (nl ++ nl) (map itemScript (a :: b :: r)))
    with (itemScript a ++ (nl ++ nl) ++ join (nl ++ nl) (map itemScript (b :: r))).
  change (itemsLines (a :: b :: r))
    with (itemLines a ++ [[]] ++ itemsLines (b :: r)).
  rewrite IH, itemScript_lines.
  rewrite join_app;
    [|apply itemLines_nonempty|discriminate].
  rewrite (join_app nl [[]]); [|discriminate|apply itemsLines_nonempty].
  cbn [join app nl]. now rewrite <- ?app_assoc.
Qed.

Lemma join_flatten h l t :
  h <> [] -> l <> [] -> t <> [] ->
  join nl (h ++ [join nl l] ++ t) = join nl (h ++ l ++ t).
Proof.
  intros Hh Hl Ht.
  rewrite !(join_app nl h); try assumption;
    [|destruct l; [congruence|discriminate]|discriminate].
  rewrite (join_app nl l), (join_app nl [_]); try assumption; try discriminate.
  reflexivity.
Qed.

(** The script is its lines, joined by line feeds. *)
Lemma generateAppsScript_lines form :
  generateAppsScript form =
  join nl (scriptHead form ++ itemsLines (items form) ++ scriptTail).
Proof.
  unfold generateAppsScript. rewrite formItems_lines.
  apply join_flatten; [discriminate|apply itemsLines_nonempty|discriminate].
Qed.

Lemma noLineFeed_itemsLines : forall l, forallb noLineFeed (itemsLines l) = true.
Proof.
  induction l as [|a l IH]; [reflexivity|].
  destruct l as [|b r]; [apply noLineFeed_itemLines|].
  change (itemsLines (a :: b :: r))
    with (itemLines a ++ [[]] ++ itemsLines (b :: r)).
  now rewrite !forallb_app, noLineFeed_itemLines, IH.
Qed.

Lemma filter_itemsLines : forall l,
  filter isCommentLine (itemsLines l) = List.concat (map warningOf l).
Proof.
  induction l as [|a l IH]; [reflexivity|].
  destruct l as [|b r].
  - cbn [itemsLines map List.concat]. now rewrite filter_itemLines, app_nil_r.
  - change (itemsLines (a :: b :: r))
      with (itemLines a ++ [[]] ++ itemsLines (b :: r)).
    rewrite !filter_app, filter_itemLines, IH. reflexivity.
Qed.

Lemma noLineFeed_head form : forallb noLineFeed (scriptHead form) = true.
Proof.
  unfold scriptHead. cbn [forallb].
  repeat match goal with
         | |- _ && _ = true => apply andb_true_intro; split
         | |- true = true => reflexivity
         end; no_line_feed.
Qed.

Lemma filter_head form : filter isCommentLine (scriptHead form) = [].
Proof. reflexivity. Qed.

(** The comment lines of the script are the warnings of its items, in
    the order of the items. *)
Lemma commentLines_script form :
  commentLines (generateAppsScript form) = List.concat (map warningOf (items form)).
Proof.
  unfold commentLines. rewrite generateAppsScript_lines, split_join.
  - rewrite !filter_app, filter_head, filter_itemsLines.
    cbn [app]. apply app_nil_r.
  - discriminate.
  - rewrite !forallb_app, noLineFeed_head, noLineFeed_itemsLines. reflexivity.
Qed.

End ScriptFacts.

Module ExportClaims.
Import GoogleFormModal ExportSpec ScriptFacts.

Lemma mapItem_createItem item :
  exists c, mapItemToApiRequest item = Some (createItem c)
            /\ ci_title c = title item /\ location_index c = 0.
Proof.
  unfold mapItemToApiRequest. destruct (type item); eexists; repeat split.
Qed.

Lemma filter_Boolean_map : forall l,
  Forall2 (fun item r => mapItemToApiRequest item = Some r)
    l (filter_Boolean (map mapItemToApiRequest l)).
Proof.
  induction l as [|a l IH]; [constructor|].
  cbn [map]. destruct (mapItem_createItem a) as (c & Hc & _).
  rewrite Hc. cbn [filter_Boolean]. now constructor.
Qed.

Lemma Forall2_rev {A B} (R : A -> B -> Prop) : forall l l',
  Forall2 R l l' -> Forall2 R (rev l) (rev l').
Proof.
  induction 1; [constructor|].
  cbn. apply Forall2_app; [assumption|]. now repeat constructor.
Qed.

(** C1.  When the platform has created the form shell, [createForm] issues
    one batched update after it, whose requests are: the request that
    turns quiz mode on, then one item-creation request for each item of
    the form, in the reverse of the order of the items and each located
    at index 0, then the request that sets the description. *)
Theorem createForm_batched_update :
  forall form accessToken message data batchUpdateResponse u,
  exists itemRequests,
    fst (createForm form accessToken (fetch_response true message data)
           batchUpdateResponse u) =
      [ POST_forms accessToken (form_title form) (form_title form);
        POST_batchUpdate accessToken (formId_ data)
          ([updateSettings true (js "quizSettings.isQuiz")]
             ++ itemRequests
             ++ [updateFormInfo (form_description form) (js "description")])
          false ]
    /\ Forall2
         (fun item r =>
            mapItemToApiRequest item = Some r /\
            exists c, r = createItem c /\ ci_title c = title item
                      /\ location_index c = 0)
         (rev (items form)) itemRequests.
Proof.
  intros form accessToken message data batchUpdateResponse u.
  exists (rev (filter_Boolean (map mapItemToApiRequest (items form)))).
  split.
  - unfold createForm. fold (allRequests form).
    replace (Nat.ltb 0 (List.length (allRequests form))) with true
      by (unfold allRequests; cbn; reflexivity).
    unfold allRequests at 1 3. destruct batchUpdateResponse as [m|[|] m []]; reflexivity.
  - apply Forall2_rev.
    eapply Forall2_impl; [|apply filter_Boolean_map].
    intros item r H. cbn beta in H. split; [exact H|].
    destruct (mapItem_createItem item) as (c & Hc & Ht & Hi).
    exists c. rewrite Hc in H. injection H as <-. auto.
Qed.

(** C5, as stated, fails: a short-answer item worth one point whose
    correct answer is present and is the empty string gets a request
    without a grading block. *)
Lemma grading_empty_answer_counterexample :
  type capitalEmpty = SHORT_ANSWER
  /\ points capitalEmpty = Some 1%Z
  /\ correctAnswer capitalEmpty = Some (One [])
  /\ requestGrading (mapItemToApiRequest capitalEmpty) = None.
Proof. repeat split. Qed.

(** C5, amended.  The request of a short-answer item carries a grading
    block exactly when the points are positive and the correct answer is
    a non-empty string or a sequence; the block then holds the points and
    the correct answer as a sequence, a single string wrapped.  The
    request of a paragraph item never carries a grading block. *)
Theorem grading_of_text_items item :
  (type item = SHORT_ANSWER ->
     (requestGrading (mapItemToApiRequest item) <> None <->
        graded item = true /\
        exists a, correctAnswer item = Some a /\ a <> One [])
     /\ (forall g, requestGrading (mapItemToApiRequest item) = Some g ->
           points item = Some (pointValue g) /\
           exists a, correctAnswer item = Some a /\
                     correctAnswers g = answersOf a))
  /\ (type item = PARAGRAPH ->
        requestGrading (mapItemToApiRequest item) = None).
Proof.
  unfold mapItemToApiRequest, requestGrading, gradingOf, graded.
  split; intros Ht; rewrite Ht; cbn [ci_body grading]; [|reflexivity].
  destruct (points item) as [p|], (correctAnswer item) as [a|];
    try (split; [split; [congruence|intros (H & a' & Ha & _); discriminate]
                |discriminate]).
  destruct (Z.ltb_spec 0 p) as [Hp|Hp].
  - replace (p =? 0)%Z with false by (symmetry; apply Z.eqb_neq; lia).
    cbn [negb andb].
    destruct a as [[|c s]|l].
    + split; [split; [congruence|intros (_ & a & Ha & Hn); congruence]
             |discriminate].
    + split; [split; intros _|intros g [= <-]];
        [split; [reflexivity|eexists; split; [reflexivity|discriminate]]
        |discriminate
        |split; [reflexivity|eexists; split; reflexivity]].
    + split; [split; intros _|intros g [= <-]];
        [split; [reflexivity|eexists; split; [reflexivity|discriminate]]
        |discriminate
        |split; [reflexivity|eexists; split; reflexivity]].
  - rewrite andb_false_r.
    split; [split; [congruence|intros [? _]; discriminate]|discriminate].
Qed.

Lemma grading_of_text_items_witness :
  requestGrading (mapItemToApiRequest capital)
    = Some {| pointValue := 1; correctAnswers := [js "Tokyo"] |}
  /\ requestGrading (mapItemToApiRequest thoughts) = None.
Proof.
  split.
  - destruct (proj1 (grading_of_text_items capital) eq_refl) as [H _].
    destruct (requestGrading (mapItemToApiRequest capital)) eqn:E;
      [|exfalso; apply (proj2 H); [split; [reflexivity|]|reflexivity];
        eexists; split; [reflexivity|discriminate]].
    vm_compute in E. injection E as <-. reflexivity.
  - exact (proj2 (grading_of_text_items thoughts) eq_refl).
Defined.




(** C6, as stated, fails: for a short-answer item with points whose
    correct answer exists but is a sequence, or the empty string, the
    comment tells to enter the answer by hand and states no suggested
    answer. *)
Lemma suggested_answer_counterexample :
  correctAnswer capitalMany = Some (Many [js "Tokyo"])
  /\ commentLines (generateAppsScript (quiz [capitalMany]))
       = [MANUAL_STEP; MANUAL_WHY; MANUAL_ENTRY; MANUAL_END]
  /\ correctAnswer capitalEmpty = Some (One [])
  /\ commentLines (generateAppsScript (quiz [capitalEmpty]))
       = [MANUAL_STEP; MANUAL_WHY; MANUAL_ENTRY; MANUAL_END].
Proof. repeat split. Qed.

(** C6, amended.  [generateAppsScript] is a total function of the form.
    The comment lines of its output are the warnings of the items, in the
    order of the items, and an item has a warning exactly when it is a
    choice item with positive points and no identified correct answer, or
    a short-answer item with positive points.  The warning of such a
    short-answer item states the suggested answer when the correct answer
    is a non-empty string, and tells to enter it by hand otherwise. *)
Theorem generateAppsScript_warnings form :
  commentLines (generateAppsScript form)
    = List.concat (map warningOf (items form))
  /\ (forall item,
        warningOf item <> [] <->
          (isChoice (type item) = true /\ graded item = true
             /\ identifiesAnswer item = false)
          \/ (type item = SHORT_ANSWER /\ graded item = true))
  /\ (forall item,
        type item = SHORT_ANSWER -> graded item = true ->
        (forall c s, correctAnswer item = Some (One (c :: s)) ->
           warningOf item =
             [ MANUAL_STEP; MANUAL_WHY;
               SUGGESTED ++ JSON_stringify (c :: s); MANUAL_END ])
        /\ ((forall c s, correctAnswer item <> Some (One (c :: s))) ->
            warningOf item =
              [MANUAL_STEP; MANUAL_WHY; MANUAL_ENTRY; MANUAL_END])).
Proof.
  split; [apply commentLines_script|split].
  - intros item. unfold warningOf.
    destruct (type item); cbn [isChoice];
      destruct (graded item); cbn [andb];
      try destruct (identifiesAnswer item); cbn [negb];
      split; try congruence; try discriminate;
      try (intros _; auto; fail);
      intros [(? & ? & ?)|(? & ?)]; discriminate.
  - intros item Ht Hg. unfold warningOf. rewrite Ht, Hg. split.
    + intros c s ->. reflexivity.
    + intros H. destruct (correctAnswer item) as [[[|c s]|l]|]; try reflexivity.
      exfalso. now apply (H c s).
Qed.

Lemma generateAppsScript_warnings_witness :
  commentLines (generateAppsScript (quiz [capital; continents]))
    = [ MANUAL_STEP; MANUAL_WHY;
        SUGGESTED ++ JSON_stringify (js "Tokyo"); MANUAL_END ].
Proof.
  destruct (generateAppsScript_warnings (quiz [capital; continents]))
    as (H & _ & Hs).
  rewrite H. cbn [quiz items map List.concat].
  destruct (Hs capital eq_refl eq_refl) as [H1 _].
  rewrite (H1 _ _ eq_refl). reflexivity.
Defined.
End ExportClaims.

Module SanitizerClaims.
Import Regex RegexFacts Gemini GeminiSpec SanitizerFacts.

Lemma space_not_closer c : is_space c = true -> is_closer c = false.
Proof.
  unfold is_space, is_closer. intros H.
  destruct (N.eqb_spec c 125) as [->|]; [discriminate|].
  destruct (N.eqb_spec c 93) as [->|]; [discriminate|reflexivity].
Qed.

Lemma space_not_comma c : is_space c = true -> is_comma c = false.
Proof.
  unfold is_space, is_comma. intros H.
  destruct (N.eqb_spec c 44) as [->|]; [discriminate|reflexivity].
Qed.

Lemma closer_not_comma c : is_closer c = true -> is_comma c = false.
Proof.
  unfold is_closer, is_comma. intros H.
  destruct (N.eqb_spec c 44) as [->|]; [discriminate|reflexivity].
Qed.

Lemma beforeCloser_spaces : forall ws c t,
  forallb is_space ws = true -> is_closer c = true ->
  beforeCloser (ws ++ c :: t) = true.
Proof.
  induction ws as [|w ws IH]; intros c t Hws Hc; cbn.
  - now rewrite Hc.
  - cbn in Hws. apply andb_prop in Hws as [Hw Hws].
    rewrite Hw, (IH c t Hws Hc). now rewrite orb_true_r.
Qed.

Lemma strip_spaces : forall ws r,
  forallb is_space ws = true -> strip (ws ++ r) = ws ++ strip r.
Proof.
  induction ws as [|w ws IH]; intros r Hws; [reflexivity|].
  cbn in Hws. apply andb_prop in Hws as [Hw Hws].
  cbn. rewrite (space_not_comma _ Hw). cbn. now rewrite IH.
Qed.

Lemma noTrailingComma_app : forall a b,
  noTrailingComma (a ++ b) = true -> noTrailingComma b = true.
Proof.
  induction a as [|c a IH]; intros b H; [exact H|].
  cbn in H. apply andb_prop in H as [_ H]. now apply IH.
Qed.

(** Injected commas are never seen by the look-ahead as white space or a
    closer, so a look-ahead that succeeds on the injected text succeeds
    on the document. *)
Lemma beforeCloser_injected d t :
  injected d t -> beforeCloser t = true -> beforeCloser d = true.
Proof.
  induction 1 as [|c d t H IH|ws c d t Hws Hc H IH]; intros Hb.
  - exact Hb.
  - cbn in *. destruct (is_closer c); [reflexivity|].
    destruct (is_space c); [|discriminate]. cbn in *. now apply IH.
  - discriminate.
Qed.

Lemma sanitize_injected d t :
  injected d t -> noTrailingComma d = true -> strip t = d.
Proof.
  induction 1 as [|c d t H IH|ws c d t Hws Hc H IH]; intros Hd.
  - reflexivity.
  - cbn in Hd. apply andb_prop in Hd as [Hc Hd].
    cbn. rewrite (IH Hd).
    destruct (is_comma c); [|reflexivity].
    cbn in *. destruct (beforeCloser t) eqn:Ht; [|reflexivity].
    rewrite (beforeCloser_injected d t H Ht) in Hc. discriminate.
  - cbn [strip]. change (is_comma 44) with true.
    rewrite (beforeCloser_spaces ws c t Hws Hc). cbn [andb].
    rewrite (strip_spaces _ _ Hws). cbn [strip].
    rewrite (closer_not_comma _ Hc). cbn [andb].
    apply noTrailingComma_app in Hd. cbn in Hd.
    apply andb_prop in Hd as [_ Hd]. now rewrite (IH Hd).
Qed.

(** C2, as stated, fails: in the document [["a,]"]] the comma of the
    string stands before a bracket, and the sanitizer removes it together
    with the injected one; the output parses, to another value. *)
Lemma comma_in_string_counterexample :
  injected listing listingInjected
  /\ JSON_parse listing = Some (JArr [JStr (js "a,]")])
  /\ JSON_parse (sanitizeJsonString listingInjected)
       = Some (JArr [JStr (js "a]")]).
Proof.
  split; [|split; reflexivity].
  unfold listing, listingInjected.
  do 6 apply injected_keep.
  apply (@injected_comma [] 93%N [] []); try reflexivity. constructor.
Qed.

(** C2, amended.  For a valid JSON document in which no comma is followed,
    white space ignored, by a closing brace or bracket (in a valid
    document such a comma can only be inside a string), and for every
    text obtained from it by injecting trailing commas, the output of the
    sanitizer is the document itself, so it parses, to the value of the
    document. *)
Theorem sanitize_injected_commas d t v :
  JSON_parse d = Some v ->
  noTrailingComma d = true ->
  injected d t ->
  sanitizeJsonString t = d /\ JSON_parse (sanitizeJsonString t) = Some v.
Proof.
  intros Hv Hd Hi.
  assert (sanitizeJsonString t = d) as ->
    by (rewrite sanitize_strip; now apply sanitize_injected).
  now split.
Qed.

Lemma injected_nested : injected nested nestedInjected.
Proof.
  unfold nested, nestedInjected.
  do 15 apply injected_keep.
  apply (@injected_comma [10; 32]%N 93%N); try reflexivity.
  apply (@injected_comma [10]%N 125%N); try reflexivity.
  constructor.
Qed.

Lemma sanitize_injected_commas_witness :
  sanitizeJsonString nestedInjected = nested
  /\ JSON_parse (sanitizeJsonString nestedInjected)
       = Some (JObj [(js "items",
                      JArr [JNum (Num false 1 0); JNum (Num false 2 0)])]).
Proof.
  apply (sanitize_injected_commas nested nestedInjected);
    [reflexivity|reflexivity|exact injected_nested].
Defined.
End SanitizerClaims.

Module GenerationClaims.
Import Gemini GeminiSpec.

(** What [generateFormFromText] gives for a response that parses. *)
Lemma generate_parsed text v :
  JSON_parse (cleanResponse text) = Some v ->
  generateFormFromText (Answered (Some text)) =
  match v with
  | JNull => GenerationError FAILED
  | _ => if accepted v then Returned v else GenerationError MISSING_FIELDS
  end.
Proof.
  intros Hv. unfold generateFormFromText, generateFormFromText_try.
  rewrite Hv. unfold accepted, absent.
  destruct v as [|b|n|s|l|m]; try reflexivity.
  assert (forall k, get (JObj m) k <> Throws) as Hg
    by (intros k; cbn; destruct (last_binding k m None); discriminate).
  pose proof (Hg (js "title")) as H1.
  pose proof (Hg (js "description")) as H2.
  pose proof (Hg (js "items")) as H3.
  destruct (get (JObj m) (js "title")) as [| |t]; [congruence|reflexivity|].
  cbn [holds]. destruct (truthy t); [|reflexivity]. cbn [negb andb].
  destruct (get (JObj m) (js "description")) as [| |d]; [congruence|reflexivity|].
  cbn [holds]. destruct (truthy d); [|reflexivity]. cbn [negb andb].
  destruct (get (JObj m) (js "items")) as [| |i]; [congruence|reflexivity|].
  cbn [holdsArray]. destruct (isArray i); reflexivity.
Qed.

(** C3: the response [null] parses, no required field is there, and the
    error raised is the one of a failed call; the responses [42] and [{}]
    raise the error of the missing fields, a text that does not parse the
    error of the response that could not be processed. *)
Lemma null_response_reported_as_failed_call :
  JSON_parse (cleanResponse (js "null")) = Some JNull
  /\ generateFormFromText (Answered (Some (js "null"))) = GenerationError FAILED
  /\ generateFormFromText (Rejected (ThrownError (js "fetch failed")))
       = GenerationError FAILED
  /\ generateFormFromText (Answered (Some (js "42")))
       = GenerationError MISSING_FIELDS
  /\ generateFormFromText (Answered (Some (js "{}")))
       = GenerationError MISSING_FIELDS
  /\ generateFormFromText (Answered (Some (js "{")))
       = GenerationError NOT_PROCESSED.
Proof. repeat split. Qed.

(** C10.  A parsed response whose title or description is the empty
    string is refused with the error of the missing fields, the error an
    absent field raises; so is one whose [items] is not an array; and a
    response that is returned has a truthy title, a truthy description
    and an array of items. *)
Theorem required_fields_checked text parsedData :
  JSON_parse (cleanResponse text) = Some parsedData ->
  (get parsedData (js "title") = Value (JStr [])
   \/ get parsedData (js "description") = Value (JStr [])
   \/ get parsedData (js "title") = Undefined
   \/ get parsedData (js "description") = Undefined
   \/ get parsedData (js "items") = Undefined
   \/ (exists w, get parsedData (js "items") = Value w /\ isArray w = false) ->
   generateFormFromText (Answered (Some text)) = GenerationError MISSING_FIELDS)
  /\ (forall form,
        generateFormFromText (Answered (Some text)) = Returned form ->
        form = parsedData
        /\ holds (get form (js "title")) = true
        /\ holds (get form (js "description")) = true
        /\ exists l, get form (js "items") = Value (JArr l)).
Proof.
  intros Hv. rewrite (generate_parsed text parsedData Hv). split.
  - intros H.
    assert (parsedData <> JNull) as Hn.
    { intros ->. cbn in H.
      destruct H as [H|[H|[H|[H|[H|(w & H & _)]]]]]; discriminate. }
    assert (accepted parsedData = false) as Ha.
    { unfold accepted.
      destruct H as [H|[H|[H|[H|[H|(w & H & Hw)]]]]]; rewrite H; cbn;
        rewrite ?andb_false_r; try reflexivity. now rewrite Hw, andb_false_r. }
    rewrite Ha. destruct parsedData; congruence.
  - intros form H.
    assert (form = parsedData /\ accepted parsedData = true) as [-> Ha].
    { destruct parsedData; try discriminate;
        destruct (accepted _); try discriminate; injection H as <-; auto. }
    unfold accepted in Ha.
    apply andb_prop in Ha as [Ha Hi]. apply andb_prop in Ha as [Ht Hd].
    repeat split; try assumption.
    destruct (get parsedData (js "items")) as [| |[| | | |l|]]; try discriminate.
    now exists l.
Qed.

Lemma required_fields_checked_witness :
  generateFormFromText (Answered (Some untitled)) = GenerationError MISSING_FIELDS
  /\ generateFormFromText (Answered (Some itemsObject))
       = GenerationError MISSING_FIELDS
  /\ exists l, get (JObj [(js "title", JStr (js "Quiz"));
                          (js "description", JStr (js "A quiz."));
                          (js "items", JArr [])]) (js "items")
               = Value (JArr l).
Proof.
  split; [|split].
  - refine (proj1 (required_fields_checked untitled _ eq_refl) _).
    left. reflexivity.
  - refine (proj1 (required_fields_checked itemsObject _ eq_refl) _).
    do 5 right. eexists. split; reflexivity.
  - refine (proj2 (proj2 (proj2
      (proj2 (required_fields_checked wellFormed _ eq_refl) _ eq_refl)))).
Defined.
End GenerationClaims.

Module FenceClaims.
Import Regex Gemini GeminiSpec TrimFacts FenceFacts.

(** C9, as stated, fails: a fenced response with an empty interior is
    returned whole, fences included; the interior of a fenced response
    loses its trailing commas; and a response without fence loses the
    white space around it, where the sanitizer alone would keep it. *)
Lemma fenced_interior_counterexample :
  cleanResponse fencedNothing = fencedNothing
  /\ cleanResponse fencedComma = js "[1]"
  /\ cleanResponse padded = js "[1]"
  /\ sanitizeJsonString padded = padded.
Proof. repeat split; vm_compute; reflexivity. Qed.

(** C9, amended.  When the response, trimmed, is a fence, a middle part
    and a closing fence, the text handed to the parser is the interior
    with its trailing commas removed, where the interior is the middle
    part without its leading word characters (the language tag) and
    trimmed; but when this interior is empty, it is the trimmed response
    itself, fences included, with its trailing commas removed.  For any
    other response it is the trimmed response with its trailing commas
    removed. *)
Theorem cleanResponse_fenced text :
  (forall m, trim text = fence ++ m ++ fence ->
     cleanResponse text =
     sanitizeJsonString
       (match trim (skipWord m) with
        | [] => trim text
        | c :: interior => c :: interior
        end))
  /\ ((forall m, trim text <> fence ++ m ++ fence) ->
      cleanResponse text = sanitizeJsonString (trim text)).
Proof.
  unfold cleanResponse. split.
  - intros m Hm. rewrite Hm.
    destruct (fence_match m) as (y & -> & ->).
    pose proof (trim_idem (skipWord m)) as Hi.
    destruct (trim (skipWord m)) as [|c i]; [reflexivity|now rewrite Hi].
  - intros Hm. now rewrite (fence_no_match (trim text) Hm).
Qed.

Lemma cleanResponse_fenced_witness :
  cleanResponse fencedQuiz = jsq "{'title': 'Quiz'}"
  /\ cleanResponse padded = js "[1]".
Proof.
  split.
  - exact (proj1 (cleanResponse_fenced fencedQuiz)
             (jsq "json
{'title': 'Quiz',}
") eq_refl).
  - refine (proj2 (cleanResponse_fenced padded) _).
    intros m H. vm_compute in H. discriminate H.
Defined.
End FenceClaims.

Module IngestionClaims.
Import InputPanel IngestionSpec.

Lemma processPage_loaded i n p fullText w :
  exists text u,
    processPage i n (inr p) fullText w =
    (inr text, (u, (if ocrDue p then [i] else []) ++ snd w)).
Proof.
  unfold processPage, ocrDue, ocrPage. fold (pageText p).
  destruct (needsOcr (pageText p) p); cbn [andb]; [|eauto].
  destruct (context p); cbn [negb andb]; [|eauto].
  destruct (render p); cbn [negb]; [|eauto].
  destruct (ocr p); cbn [fst snd]; eauto.
Qed.

(** The calls of the OCR client over the pages of a document that loads
    page after page. *)
Lemma processPages_loaded : forall pages i n fullText w,
  exists text u,
    processPages i n (map inr pages) fullText w =
    (inr text, (u, rev (dueFrom i pages) ++ snd w)).
Proof.
  induction pages as [|p pages IH]; intros i n fullText w.
  - exists fullText, (fst w). now destruct w.
  - cbn [map processPages].
    destruct (processPage_loaded i n p fullText w) as (t1 & u1 & ->).
    destruct (IH (S i) n t1 (u1, (if ocrDue p then [i] else []) ++ snd w))
      as (t2 & u2 & ->).
    exists t2, u2. cbn [dueFrom snd].
    rewrite rev_app_distr, <- app_assoc. now destruct (ocrDue p).
Qed.

Lemma count_dueFrom : forall pages i j,
  count_occ Nat.eq_dec (dueFrom i pages) j =
  match nth_error pages (j - i) with
  | Some p => if Nat.leb i j && ocrDue p then 1 else 0
  | None => 0
  end.
Proof.
  induction pages as [|p pages IH]; intros i j.
  - cbn. now destruct (j - i).
  - cbn [dueFrom]. rewrite count_occ_app, IH.
    destruct (Nat.leb_spec i j) as [Hij|Hij].
    + destruct (Nat.eq_dec i j) as [->|Hne].
      * rewrite Nat.sub_diag. replace (j - S j) with 0 by lia.
        cbn [nth_error andb].
        replace (Nat.leb (S j) j) with false by (symmetry; apply Nat.leb_gt; lia).
        cbn [andb]. destruct (ocrDue p); cbn [count_occ];
          [destruct (Nat.eq_dec j j); [|congruence]|]; now destruct pages.
      * replace (j - i) with (S (j - S i)) by lia. cbn [nth_error].
        replace (Nat.leb (S i) j) with true by (symmetry; apply Nat.leb_le; lia).
        destruct (ocrDue p); cbn [count_occ];
          [destruct (Nat.eq_dec i j); [congruence|]|]; reflexivity.
    + replace (j - i) with 0 by lia. replace (j - S i) with 0 by lia.
      cbn [nth_error andb].
      replace (Nat.leb (S i) j) with false by (symmetry; apply Nat.leb_gt; lia).
      destruct (ocrDue p); cbn [count_occ];
        [destruct (Nat.eq_dec i j); [lia|]|]; now destruct pages.
Qed.

(** C7, as stated, fails, in both halves: the OCR client is called for
    a page whose extracted text has fifty characters, all of them spaces,
    and it is not called for a page with a short text and a height of 200
    when no 2d context is obtained. *)
Lemma ocr_heuristic_counterexample :
  List.length (pageText (scanned fiftySpaces 200 true true)) = 50
  /\ snd (processFile
            (document "scan.pdf" "application/pdf"
               [scanned fiftySpaces 200 true true]) (drafting, [])) = [1]
  /\ List.length (pageText (scanned "Page 1" 200 false true)) = 6
  /\ snd (processFile
            (document "scan.pdf" "application/pdf"
               [scanned "Page 1" 200 false true]) (drafting, [])) = [].
Proof. repeat split. Qed.

(** C7, amended.  For a PDF document that loads and whose pages all load,
    the OCR client is called exactly once for every page whose extracted
    text, trimmed, is shorter than 50 characters, whose height exceeds
    100 and for which a 2d context is obtained and the rendering
    succeeds, and it is not called for any other page; in particular it
    is not called for a page whose trimmed text has 50 characters or
    more. *)
Theorem ocr_called_once_per_scanned_page file pages u k p :
  isPdf file = true ->
  pdf file = inr (map inr pages) ->
  nth_error pages k = Some p ->
  count_occ Nat.eq_dec (snd (processFile file (u, []))) (S k)
    = (if Nat.ltb (List.length (trim (pageText p))) 50
          && negb (Qle_bool (height p) 100)
          && context p && render p
       then 1 else 0)
  /\ (50 <= List.length (trim (pageText p)) ->
      count_occ Nat.eq_dec (snd (processFile file (u, []))) (S k) = 0).
Proof.
  intros Hpdf Hdoc Hp.
  assert (snd (processFile file (u, [])) = rev (dueFrom 1 pages)) as ->.
  { unfold processFile, processFile_try. cbn [fst snd].
    rewrite Hpdf, Hdoc.
    match goal with
    | |- context [processPages 1 ?n (map inr pages) ?t ?w] =>
        destruct (processPages_loaded pages 1 n t w) as (t1 & u1 & ->)
    end.
    cbn. apply app_nil_r. }
  rewrite count_occ_rev, count_dueFrom.
  replace (S k - 1) with k by lia. rewrite Hp. cbn [Nat.leb andb].
  unfold ocrDue, needsOcr. split; [reflexivity|].
  intros Hl.
  replace (Nat.ltb (List.length (trim (pageText p))) 50) with false
    by (symmetry; apply Nat.ltb_ge; exact Hl).
  reflexivity.
Qed.

Lemma ocr_called_once_per_scanned_page_witness :
  count_occ Nat.eq_dec
    (snd (processFile
            (document "scan.pdf" ""
               [scanned "Page 1" 200 true true;
                scanned "A page with a text that is long enough to be read as it is." 200 true true])
            (drafting, []))) 1 = 1.
Proof.
  exact (proj1 (ocr_called_once_per_scanned_page
                  (document "scan.pdf" ""
                     [scanned "Page 1" 200 true true;
                      scanned "A page with a text that is long enough to be read as it is." 200 true true])
                  _ drafting 0 _ eq_refl eq_refl eq_refl)).
Defined.

(** C8, as stated, fails: a file of an unsupported type clears the text
    that the panel held. *)
Lemma unsupported_clears_input_counterexample :
  unsupported (document "photo.png" "image/png" []) = true
  /\ inputText drafting = js "draft"
  /\ inputText (fst (processFile (document "photo.png" "image/png" [])
                       (drafting, []))) = [].
Proof. repeat split. Qed.

Lemma unsupported_branches file :
  unsupported file = true ->
  isPdf file = false /\ isDocx file = false /\ isText file = false.
Proof.
  unfold unsupported, isPdf, isDocx, isText, array_includes.
  cbn [existsb].
  destruct (eqs (fileExtension file) (js "pdf")),
    (eqs (fileExtension file) (js "docx")),
    (eqs (fileExtension file) (js "txt")),
    (eqs (fileExtension file) (js "md")),
    (eqs (type file) (js "application/pdf")),
    (eqs (type file) DOCX_TYPE),
    (startsWith (type file) (js "text/")); cbn; intros H;
    try discriminate; auto.
Qed.

(** C8, amended.  For every file that is of none of the supported
    formats, by its extension and by its declared content type,
    [processFile] ends with the message that lists the accepted formats,
    reads nothing and calls no OCR, leaves the panel idle, and leaves the
    input text empty: the text held before is cleared, not kept. *)
Theorem unsupported_file_rejected file w :
  unsupported file = true ->
  processFile file w =
    ({| inputText := [];
        isProcessingFile := false;
        processingMessage := processingMessage (fst w);
        fileProcessingError :=
          Some (js "Unsupported file type. Please upload a PDF, DOCX, TXT, or MD file.") |},
     snd w).
Proof.
  intros H. apply unsupported_branches in H as (H1 & H2 & H3).
  unfold processFile, processFile_try. cbn [fst snd].
  rewrite H1, H2, H3. reflexivity.
Qed.

Lemma unsupported_file_rejected_witness :
  processFile (document "photo.png" "image/png" []) (drafting, [7]) =
    ({| inputText := [];
        isProcessingFile := false;
        processingMessage := js "Processing your file...";
        fileProcessingError :=
          Some (js "Unsupported file type. Please upload a PDF, DOCX, TXT, or MD file.") |},
     [7]).
Proof.
  exact (unsupported_file_rejected (document "photo.png" "image/png" [])
           (drafting, [7]) eq_refl).
Defined.
End IngestionClaims.

Module ExportExtras.
Import GoogleFormModal ExportSpec ExportSpec2 ScriptFacts SignIn.

(** X1: a grading block over all item types.  The request made for an item
    carries a grading block exactly when the item is neither a paragraph
    nor a section header, its points are positive, and its correct answer
    is a non-empty string or a sequence, the empty sequence included. *)
Theorem grading_block_by_type item :
  requestGrading (mapItemToApiRequest item) <> None <->
  type item <> PARAGRAPH /\ type item <> SECTION_HEADER
  /\ graded item = true
  /\ exists a, correctAnswer item = Some a /\ a <> One [].
Proof.
  unfold mapItemToApiRequest, requestGrading, gradingOf, graded.
  assert (forall p, (negb (p =? 0) && (0 <? p))%Z = (0 <? p)%Z) as Hp.
  { intros p. destruct (Z.ltb_spec 0 p); [|apply andb_false_r].
    replace (p =? 0)%Z with false by (symmetry; apply Z.eqb_neq; lia).
    reflexivity. }
  destruct (type item); cbn [ci_body grading];
    try (split; [congruence|intros (H1 & H2 & _); congruence]);
    destruct (points item) as [p|], (correctAnswer item) as [a|];
    rewrite ?Hp;
    try (split; [congruence
                |intros (_ & _ & H & a' & Ha & Hn); congruence]);
    (destruct (0 <? p)%Z;
     [|split; [congruence|intros (_ & _ & H & _); discriminate]]);
    (destruct a as [[|c s]|l];
     [split; [congruence|intros (_ & _ & _ & a' & Ha & Hn); congruence]
     |split; [intros _|discriminate];
      repeat (split; [discriminate || reflexivity|]);
      eexists; split; [reflexivity|discriminate]
     |split; [intros _|discriminate];
      repeat (split; [discriminate || reflexivity|]);
      eexists; split; [reflexivity|discriminate]]).
Qed.

(** X2: the two export modes agree on which graded choice items lack an
    answer.  For a choice item with positive points, the script carries
    the warning comment exactly when the grading block of the request
    holds no correct answer: there is no block, or its answers are
    empty. *)
Theorem modes_agree_on_missing_answer item :
  isChoice (type item) = true ->
  graded item = true ->
  (commentLines (itemScript item) = [AI_WARNING] <->
   match requestGrading (mapItemToApiRequest item) with
   | Some g => correctAnswers g = []
   | None => True
   end)
  /\ (commentLines (itemScript item) = [] <->
      exists g a l, requestGrading (mapItemToApiRequest item) = Some g
                    /\ correctAnswers g = a :: l).
Proof.
  intros Hc Hg. rewrite commentLines_itemScript.
  unfold warningOf, identifiesAnswer, mapItemToApiRequest, requestGrading,
    gradingOf.
  rewrite Hg. unfold graded in Hg.
  destruct (points item) as [p|]; [|discriminate].
  replace (negb (p =? 0)%Z) with true
    by (symmetry; apply negb_true_iff, Z.eqb_neq; apply Z.ltb_lt in Hg; lia).
  rewrite Hg. cbn [andb].
  destruct (type item); try discriminate; cbn [ci_body grading];
    destruct (correctAnswer item) as [[[|c s]|[|a l]]|]; cbn [negb];
    (split; split;
     [ try tauto; try reflexivity; try discriminate
     | try tauto; try reflexivity; try discriminate;
       try (intros (g & a' & l' & H & H'); discriminate)
     | try discriminate; try (intros _; do 3 eexists; split; reflexivity)
     | try reflexivity; try (intros (g & a' & l' & H & H'); try discriminate;
                             injection H as <-; discriminate) ]).
Qed.

Lemma modes_agree_on_missing_answer_witness :
  commentLines (itemScript continentsNoKey) = [AI_WARNING]
  /\ requestGrading (mapItemToApiRequest continentsNoKey)
       = Some {| pointValue := 1; correctAnswers := [] |}.
Proof.
  split; [|reflexivity].
  apply (proj1 (modes_agree_on_missing_answer continentsNoKey eq_refl eq_refl)).
  reflexivity.
Defined.

(** X3: the question payload by item type.  A section header gets a text
    item with its description and no question; every other item gets a
    question, which is a text question (multi-line for a paragraph only)
    for the two text types and a choice question of the kind of the type
    for the three choice types, with the options of the item copied in
    order (none when the item has no options); [required] is sent as
    [true] when the item is required and is left out otherwise. *)
Theorem request_payload_by_type item :
  (type item = SECTION_HEADER ->
     exists c, mapItemToApiRequest item = Some (createItem c)
               /\ ci_body c = textItem
               /\ ci_description c = description item)
  /\ (type item <> SECTION_HEADER ->
      exists q,
        requestQuestion (mapItemToApiRequest item) = Some q
        /\ q_required q = (if is_required item then Some true else None)
        /\ textQuestion q =
             match type item with
             | SHORT_ANSWER => Some false
             | PARAGRAPH => Some true
             | _ => None
             end
        /\ choiceQuestion q =
             match choiceKind (type item) with
             | Some kind =>
                 Some (kind,
                       match options item with Some l => l | None => [] end)
             | None => None
             end).
Proof.
  unfold mapItemToApiRequest, requestQuestion, required_flag.
  split; intros Ht.
  - rewrite Ht. eexists. repeat split.
  - destruct (type item); try congruence; eexists; repeat split.
Qed.

Lemma request_payload_by_type_witness :
  (exists c, mapItemToApiRequest passage = Some (createItem c)
             /\ ci_body c = textItem
             /\ ci_description c = Some (js "Read this."))
  /\ exists q, requestQuestion (mapItemToApiRequest capitalChoice) = Some q
               /\ choiceQuestion q
                    = Some (js "RADIO", [js "Tokyo"; js "Kyoto"; js "Osaka"]).
Proof.
  split.
  - exact (proj1 (request_payload_by_type passage) eq_refl).
  - destruct (proj2 (request_payload_by_type capitalChoice)
                ltac:(discriminate)) as (q & Hq & _ & _ & Hc).
    exists q. split; [exact Hq|exact Hc].
Defined.

(** X4: the outcome of [createForm].  The export succeeds exactly when the
    platform answers both calls with a success status; the modal then
    holds the address of the form and no error.  In every other case the
    modal ends in the error state with a message, and its form address is
    left as it was.  When the creation of the shell fails, the batched
    update is never sent. *)
Theorem createForm_outcome form accessToken createResponse batchUpdateResponse u :
  let r := createForm form accessToken createResponse batchUpdateResponse u in
  (status (snd r) = success <->
     succeeded createResponse = true /\ succeeded batchUpdateResponse = true)
  /\ (status (snd r) = success ->
      error_ (snd r) = None /\
      exists message data,
        createResponse = fetch_response true message data
        /\ formUrl (snd r) = Some (responderUri data))
  /\ (status (snd r) <> success ->
      status (snd r) = error /\ error_ (snd r) <> None
      /\ formUrl (snd r) = formUrl u)
  /\ (succeeded createResponse = false ->
      fst r = [POST_forms accessToken (form_title form) (form_title form)]).
Proof.
  unfold createForm.
  replace (Nat.ltb 0 (List.length (allRequests form))) with true
    by (unfold allRequests; reflexivity).
  destruct createResponse as [m|[|] m d];
    [| destruct batchUpdateResponse as [m'|[|] m' []] |];
    cbn [fst snd status error_ formUrl succeeded failed andb];
    repeat split; try discriminate; try congruence; try tauto;
    try (intros [? ?]; discriminate); eauto.
Qed.

Lemma createForm_outcome_witness :
  formUrl (snd (createForm (quiz [capital]) (js "ya29.token")
                  (fetch_response true None
                     {| formId_ := js "f1"; responderUri := js "https://forms" |})
                  (fetch_response true None tt)
                  {| status := idle; error_ := None; formUrl := None |}))
    = Some (js "https://forms")
  /\ fst (createForm (quiz [capital]) (js "ya29.token")
             (fetch_rejected (Some (js "Failed to fetch")))
             (fetch_response true None tt)
             {| status := idle; error_ := None; formUrl := None |})
      = [POST_forms (js "ya29.token") (js "Geography Quiz") (js "Geography Quiz")].
Proof.
  split.
  - destruct (proj1 (proj2 (createForm_outcome (quiz [capital]) (js "ya29.token")
               (fetch_response true None
                  {| formId_ := js "f1"; responderUri := js "https://forms" |})
               (fetch_response true None tt)
               {| status := idle; error_ := None; formUrl := None |}))
               eq_refl) as (_ & m & d & E & ->).
    now injection E as _ <-.
  - exact (proj2 (proj2 (proj2 (createForm_outcome (quiz [capital])
             (js "ya29.token") (fetch_rejected (Some (js "Failed to fetch")))
             (fetch_response true None tt)
             {| status := idle; error_ := None; formUrl := None |})))
             eq_refl).
Defined.

(** X5: the platform's message is shown as it is.  When the platform
    refuses either call with a non-empty error message, this message is
    the error of the modal. *)
Theorem createForm_error_verbatim form accessToken c m data batch u :
  (error_ (snd (createForm form accessToken
                  (fetch_response false (Some (c :: m)) data) batch u))
     = Some (c :: m))
  /\ (forall message data' unit_,
        error_ (snd (createForm form accessToken
                       (fetch_response true message data')
                       (fetch_response false (Some (c :: m)) unit_) u))
          = Some (c :: m)).
Proof.
  split; [reflexivity|]. intros message data' unit_. unfold createForm.
  replace (Nat.ltb 0 (List.length (allRequests form))) with true
    by (unfold allRequests; reflexivity).
  reflexivity.
Qed.

(** X6: no call without a token.  [handleAuthAndCreate] calls the Forms
    API only when the sign-in library is loaded, a client id is
    configured and the sign-in has delivered a non-empty access token;
    every call then carries this token.  In every other case no call is
    made and the modal is in the error state, or still signing in. *)
Theorem calls_need_a_token isGsiLoaded CLIENT_ID s form createResponse
    batchUpdateResponse u :
  let r := handleAuthAndCreate isGsiLoaded CLIENT_ID s form createResponse
             batchUpdateResponse u in
  (fst r <> [] ->
     isGsiLoaded = true
     /\ (exists c i, CLIENT_ID = Some (c :: i))
     /\ exists c t, s = callback (Some (c :: t))
                    /\ Forall (fun k => callToken k = c :: t) (fst r))
  /\ (fst r = [] ->
      status (snd r) = error \/ status (snd r) = authenticating).
Proof.
  unfold handleAuthAndCreate.
  destruct isGsiLoaded, CLIENT_ID as [[|c i]|]; cbn [nonEmpty fst snd];
    try (split; [congruence|auto]).
  destruct s as [[[|c' t]|]|m|]; cbn [nonEmpty fst snd];
    try (split; [congruence|auto]).
  split.
  - intros _. split; [reflexivity|]. split; [eauto|].
    exists c', t. split; [reflexivity|].
    unfold createForm.
    destruct createResponse as [m|[|] m d]; cbn [fst];
      try (repeat constructor).
    destruct (Nat.ltb 0 _); [|repeat constructor].
    destruct batchUpdateResponse as [m'|[|] m' []]; repeat constructor.
  - unfold createForm.
    destruct createResponse as [m|[|] m d]; cbn [fst]; try discriminate.
    destruct (Nat.ltb 0 _); [|discriminate].
    destruct batchUpdateResponse as [m'|[|] m' []]; discriminate.
Qed.

Lemma calls_need_a_token_witness :
  exists c t,
    callback (Some (js "ya29.token")) = callback (Some (c :: t))
    /\ Forall (fun k => callToken k = c :: t)
         (fst (handleAuthAndCreate true (Some (js "client-id"))
                 (callback (Some (js "ya29.token"))) (quiz [capital])
                 (fetch_response true None
                    {| formId_ := js "f1"; responderUri := js "https://forms" |})
                 (fetch_response true None tt)
                 {| status := idle; error_ := None; formUrl := None |})).
Proof.
  refine (proj2 (proj2 (proj1 (calls_need_a_token true (Some (js "client-id"))
            (callback (Some (js "ya29.token"))) (quiz [capital])
            (fetch_response true None
               {| formId_ := js "f1"; responderUri := js "https://forms" |})
            (fetch_response true None tt)
            {| status := idle; error_ := None; formUrl := None |}) _))).
  discriminate.
Defined.






End ExportExtras.

Module GeminiExtras.
Import Regex RegexSpec RegexFacts Gemini GeminiSpec SanitizerFacts TrimFacts FenceFacts.

(** X9: what the sanitizer removes.  [sanitizeJsonString] removes, in one
    pass over its input, exactly the commas that are followed, white
    space ignored, by a closing brace or bracket, and keeps every other
    code unit in its place. *)
Theorem sanitizer_removes_commas_before_closers s :
  sanitizeJsonString s = strip s.
Proof. apply replace_strip. Qed.

Lemma strip_length : forall s, List.length (strip s) <= List.length s.
Proof.
  induction s as [|c s IH]; [reflexivity|].
  cbn [strip]. destruct (is_comma c && beforeCloser s); cbn; lia.
Qed.

Lemma strip_fixed : forall s, strip s = s <-> noTrailingComma s = true.
Proof.
  induction s as [|c s IH]; [now split|].
  cbn [strip noTrailingComma].
  destruct (is_comma c && beforeCloser s); cbn [negb andb].
  - split; [|discriminate]. intros H.
    pose proof (strip_length s) as Hl.
    apply (f_equal (@List.length N)) in H. cbn in H. lia.
  - rewrite <- IH. split; [now intros [= ->]|now intros ->].
Qed.

Lemma strip_other_units : forall s,
  filter (fun c => negb (is_comma c)) (strip s)
  = filter (fun c => negb (is_comma c)) s.
Proof.
  induction s as [|c s IH]; [reflexivity|].
  cbn [strip]. destruct (is_comma c) eqn:Hc; cbn [andb].
  - destruct (beforeCloser s); cbn [filter]; rewrite Hc; exact IH.
  - cbn [filter]. rewrite Hc. cbn [negb]. now f_equal.
Qed.

(** X10: the sanitizer only drops commas.  The output of the sanitizer is
    its input with some commas removed: the code units other than commas
    are the same, in the same order, and the output is not longer; and
    the output is the input itself exactly when no comma of the input
    stands before a closer. *)
Theorem sanitizer_only_drops_commas s :
  filter (fun c => negb (is_comma c)) (sanitizeJsonString s)
    = filter (fun c => negb (is_comma c)) s
  /\ List.length (sanitizeJsonString s) <= List.length s
  /\ (sanitizeJsonString s = s <-> noTrailingComma s = true).
Proof.
  rewrite sanitize_strip.
  split; [apply strip_other_units|split; [apply strip_length|apply strip_fixed]].
Qed.

(** X11: one pass only.  Of two commas that follow each other before a
    closer, the sanitizer removes the second and keeps the first, which
    then is a trailing comma of the output: the output of the sanitizer
    need not be free of trailing commas. *)
Theorem sanitizer_keeps_first_of_two_commas ws c r :
  forallb is_space ws = true -> is_closer c = true ->
  sanitizeJsonString (44%N :: 44%N :: ws ++ c :: r)
    = 44%N :: ws ++ c :: sanitizeJsonString r
  /\ noTrailingComma (sanitizeJsonString (44%N :: 44%N :: ws ++ c :: r))
       = false.
Proof.
  intros Hws Hc. rewrite !sanitize_strip.
  assert (strip (44%N :: 44%N :: ws ++ c :: r) = 44%N :: ws ++ c :: strip r)
    as ->.
  { cbn [strip]. change (is_comma 44) with true.
    change (beforeCloser (44%N :: ws ++ c :: r)) with false.
    cbn [andb].
    rewrite (SanitizerClaims.beforeCloser_spaces ws c r Hws Hc). cbn [andb].
    rewrite (SanitizerClaims.strip_spaces ws _ Hws). cbn [strip].
    now rewrite (SanitizerClaims.closer_not_comma c Hc). }
  split; [reflexivity|].
  cbn [noTrailingComma]. change (is_comma 44) with true.
  now rewrite (SanitizerClaims.beforeCloser_spaces ws c (strip r) Hws Hc).
Qed.

Lemma sanitizer_keeps_first_of_two_commas_witness :
  sanitizeJsonString (js ",,]") = js ",]"
  /\ noTrailingComma (sanitizeJsonString (js ",,]")) = false.
Proof.
  exact (sanitizer_keeps_first_of_two_commas [] 93%N [] eq_refl eq_refl).
Defined.

(** X12: a form is returned only for a checked object.  Whenever
    [generateFormFromText] returns a value, the call was answered with a
    text, the value is what [JSON.parse] gives for the cleaned text, it is
    a JSON object, and it passed the three checks; a rejected call, a
    response without text, and a response that is an array, a string, a
    number, a boolean or [null] never give a form. *)
Theorem returned_form_is_checked_object r form :
  generateFormFromText r = Returned form ->
  exists text m,
    r = Answered (Some text)
    /\ JSON_parse (cleanResponse text) = Some form
    /\ form = JObj m
    /\ accepted form = true.
Proof.
  destruct r as [e|[text|]].
  - unfold generateFormFromText. cbn. discriminate.
  - destruct (JSON_parse (cleanResponse text)) as [v|] eqn:Hv.
    + rewrite (GenerationClaims.generate_parsed text v Hv).
      destruct v as [|b|n|s|l|m]; try discriminate;
        try (cbn; discriminate).
      destruct (accepted (JObj m)) eqn:Ha; [|discriminate].
      intros [= <-]. exists text, m. auto.
    + unfold generateFormFromText, generateFormFromText_try. rewrite Hv.
      discriminate.
  - discriminate.
Qed.

Lemma returned_form_is_checked_object_witness :
  exists text m,
    Answered (Some wellFormed) = Answered (Some text)
    /\ JSON_parse (cleanResponse text)
         = Some (JObj [(js "title", JStr (js "Quiz"));
                       (js "description", JStr (js "A quiz."));
                       (js "items", JArr [])])
    /\ JObj [(js "title", JStr (js "Quiz"));
             (js "description", JStr (js "A quiz."));
             (js "items", JArr [])] = JObj m
    /\ accepted (JObj [(js "title", JStr (js "Quiz"));
                       (js "description", JStr (js "A quiz."));
                       (js "items", JArr [])]) = true.
Proof.
  exact (returned_form_is_checked_object (Answered (Some wellFormed)) _ eq_refl).
Defined.

(** X13: the three messages.  A response that does not parse after the
    cleaning raises the message of the response that could not be
    processed; a rejected call never gives a form, and raises the message
    of the failed generation unless what was thrown is a syntax error or
    an error whose message holds the phrase of the missing fields; the
    three messages differ from one another. *)
Theorem generation_failure_messages :
  (forall text, JSON_parse (cleanResponse text) = None ->
     generateFormFromText (Answered (Some text)) = GenerationError NOT_PROCESSED)
  /\ (forall e, exists message,
        generateFormFromText (Rejected e) = GenerationError message)
  /\ (forall message, includes message MISSING_FIELDS_KEY = false ->
        generateFormFromText (Rejected (ThrownError message))
          = GenerationError FAILED)
  /\ generateFormFromText (Rejected ThrownOther) = GenerationError FAILED
  /\ generateFormFromText (Answered None) = GenerationError FAILED
  /\ NOT_PROCESSED <> FAILED /\ NOT_PROCESSED <> MISSING_FIELDS
  /\ FAILED <> MISSING_FIELDS.
Proof.
  repeat split; try discriminate.
  - intros text H. unfold generateFormFromText, generateFormFromText_try.
    now rewrite H.
  - intros e. unfold generateFormFromText. cbn. eauto.
  - intros message H.
    unfold generateFormFromText, generateFormFromText_try,
      generateFormFromText_catch. now rewrite H.
Qed.

Lemma generation_failure_messages_witness :
  generateFormFromText (Answered (Some (js "{'title': 1}")))
    = GenerationError NOT_PROCESSED
  /\ generateFormFromText (Rejected (ThrownError (js "fetch failed")))
      = GenerationError FAILED.
Proof.
  split.
  - exact (proj1 generation_failure_messages (js "{'title': 1}") eq_refl).
  - exact (proj1 (proj2 (proj2 generation_failure_messages))
             (js "fetch failed") eq_refl).
Defined.

Lemma not_fenced c s : c <> 96%N -> forall m, c :: s <> fence ++ m ++ fence.
Proof. intros Hc m [= -> _]. congruence. Qed.

(** X14: a clean response is handed to the parser as it is.  A response
    that neither starts nor ends with white space, does not start with a
    back-tick and holds no comma before a closer goes through the
    cleaning unchanged. *)
Theorem clean_response_unchanged c body z :
  is_space c = false -> c <> 96%N -> is_space z = false ->
  noTrailingComma (c :: body ++ [z]) = true ->
  cleanResponse (c :: body ++ [z]) = c :: body ++ [z].
Proof.
  intros Hc Hb Hz Hn. unfold cleanResponse.
  assert (trim (c :: body ++ [z]) = c :: body ++ [z]) as ->.
  { unfold trim. rewrite (trimStart_fixed c _ Hc).
    apply (trimEnd_fixed (c :: body) z Hz). }
  rewrite (fence_no_match _ (not_fenced c (body ++ [z]) Hb)).
  rewrite sanitize_strip. now apply strip_fixed.
Qed.

Lemma clean_response_unchanged_witness :
  cleanResponse wellFormed = wellFormed.
Proof.
  exact (clean_response_unchanged 123%N (removelast (tl wellFormed)) 125%N
           eq_refl ltac:(discriminate) eq_refl eq_refl).
Defined.

Lemma trim_fixed c s z :
  is_space c = false -> is_space z = false ->
  trim (c :: s ++ [z]) = c :: s ++ [z].
Proof.
  intros Hc Hz. unfold trim. rewrite (trimStart_fixed c _ Hc).
  apply (trimEnd_fixed (c :: s) z Hz).
Qed.

Lemma skipWord_tag : forall tag r,
  forallb is_word tag = true -> headNot is_word r -> skipWord (tag ++ r) = r.
Proof.
  induction tag as [|a tag IH]; intros r Ht Hr.
  - destruct r as [|c r]; [reflexivity|]. cbn in *. now rewrite Hr.
  - cbn in Ht. apply andb_prop in Ht as [Ha Ht]. cbn. rewrite Ha. now apply IH.
Qed.

(** X15: the fence is transparent.  A response that a fence wraps, with a
    language tag of word characters and the interior on lines of its own,
    gives the same text to the parser, and so the same form or error, as
    the interior alone, when the interior neither starts nor ends with
    white space and does not start with a back-tick. *)
Theorem fence_is_transparent tag c body z :
  forallb is_word tag = true ->
  is_space c = false -> c <> 96%N -> is_space z = false ->
  let interior := c :: body ++ [z] in
  let fenced := fence ++ (tag ++ 10%N :: interior ++ [10%N]) ++ fence in
  cleanResponse fenced = cleanResponse interior
  /\ generateFormFromText (Answered (Some fenced))
     = generateFormFromText (Answered (Some interior)).
Proof.
  intros Ht Hc Hb Hz interior fenced.
  assert (cleanResponse fenced = cleanResponse interior) as H.
  { unfold cleanResponse.
    assert (trim interior = interior) as Hi
      by (apply trim_fixed; assumption).
    assert (trim fenced = fenced) as ->.
    { assert (fenced =
              96%N :: ([96; 96]%N ++ (tag ++ 10%N :: interior ++ [10%N])
                         ++ [96; 96]%N) ++ [96%N]) as ->
        by (unfold fenced, fence; cbn [app]; now rewrite <- !app_assoc).
      apply trim_fixed; reflexivity. }
    unfold fenced.
    destruct (fence_match (tag ++ 10%N :: interior ++ [10%N]))
      as (y & -> & ->).
    rewrite (skipWord_tag tag _ Ht) by reflexivity.
    assert (trim (10%N :: interior ++ [10%N]) = interior) as ->.
    { unfold trim. change (trimStart (10%N :: interior ++ [10%N]))
        with (trimStart (interior ++ [10%N])).
      unfold interior. cbn [app]. rewrite (trimStart_fixed c _ Hc).
      unfold trimEnd. rewrite app_comm_cons, rev_app_distr. cbn [rev app].
      change (trimStart (10%N :: rev (c :: body ++ [z])))
        with (trimStart (rev (c :: body ++ [z]))).
      apply (trimEnd_fixed (c :: body) z Hz). }
    unfold interior in *. rewrite !Hi.
    rewrite (fence_no_match _ (not_fenced c (body ++ [z]) Hb)).
    reflexivity. }
  split; [exact H|].
  unfold generateFormFromText, generateFormFromText_try. now rewrite H.
Qed.

Lemma fence_is_transparent_witness :
  cleanResponse (fence ++ (js "json" ++ 10%N :: wellFormed ++ [10%N]) ++ fence)
    = cleanResponse wellFormed.
Proof.
  exact (proj1 (fence_is_transparent (js "json") 123%N
                  (removelast (tl wellFormed)) 125%N
                  eq_refl eq_refl ltac:(discriminate) eq_refl)).
Defined.
End GeminiExtras.

Module IngestionExtras.
Import InputPanel IngestionSpec IngestionSpec2 IngestionClaims.

(** X16: reading a DOCX or a text file.  For a file that is not taken for
    a PDF and is taken for a DOCX, or for neither and is taken for a text
    file, [processFile] puts what the reading gives into the input text
    as it is, without trimming, with no error; when the reading throws,
    the input text is left empty and the message of what was thrown is
    shown.  No OCR call is made, and the panel ends idle. *)
Theorem plain_file_read file w :
  isPdf file = false ->
  let content := if isDocx file then docx file else text file in
  isDocx file || isText file = true ->
  snd (processFile file w) = snd w
  /\ isProcessingFile (fst (processFile file w)) = false
  /\ (forall v, content = inr v ->
        inputText (fst (processFile file w)) = v
        /\ fileProcessingError (fst (processFile file w)) = None)
  /\ (forall e, content = inl e ->
        inputText (fst (processFile file w)) = []
        /\ fileProcessingError (fst (processFile file w))
             = Some (shownMessage e)).
Proof.
  intros Hp content Hk. unfold processFile, processFile_try. rewrite Hp.
  subst content. destruct (isDocx file).
  - destruct (docx file) as [[m|]|v]; cbn; repeat split; intros;
      match goal with
      | H : inl _ = inr _ |- _ => discriminate H
      | H : inr _ = inl _ |- _ => discriminate H
      | H : inl _ = inl _ |- _ => injection H as <-; reflexivity
      | H : inr _ = inr _ |- _ => injection H as <-; reflexivity
      | _ => reflexivity
      end.
  - cbn in Hk. rewrite Hk.
    destruct (text file) as [[m|]|v]; cbn; repeat split; intros;
      match goal with
      | H : inl _ = inr _ |- _ => discriminate H
      | H : inr _ = inl _ |- _ => discriminate H
      | H : inl _ = inl _ |- _ => injection H as <-; reflexivity
      | H : inr _ = inr _ |- _ => injection H as <-; reflexivity
      | _ => reflexivity
      end.
Qed.

Lemma plain_file_read_witness :
  inputText (fst (processFile
                    (notes "notes.MD" "" (inr (js "  Quiz: 1. What is 2+2?  ")))
                    (drafting, [])))
    = js "  Quiz: 1. What is 2+2?  ".
Proof.
  exact (proj1 (proj1 (proj2 (proj2
           (plain_file_read
              (notes "notes.MD" "" (inr (js "  Quiz: 1. What is 2+2?  ")))
              (drafting, []) eq_refl eq_refl))) _ eq_refl)).
Defined.

Lemma processPage_text i n p fullText w :
  exists u,
    processPage i n (inr p) fullText w =
      (inr (fullText ++ pageContribution p),
       (u, (if ocrDue p then [i] else []) ++ snd w))
    /\ inputText u = inputText (fst w)
    /\ isProcessingFile u = isProcessingFile (fst w)
    /\ (fileProcessingError u = None <->
        fileProcessingError (fst w) = None /\ ocrFailed p = false).
Proof.
  unfold processPage, ocrDue, ocrFailed, pageContribution, ocrPage.
  unfold ocrRead. fold (pageText p).
  destruct (needsOcr (pageText p) p); cbn [andb negb];
    [destruct (context p); cbn [negb andb];
     [destruct (render p); cbn [negb andb];
      [destruct (ocr p); cbn [fst snd negb]|]|]|];
    (eexists; split; [reflexivity|]; split; [reflexivity|];
     split; [reflexivity|]; cbn;
     split;
     [ intros H; first [discriminate H | split; [exact H|reflexivity]]
     | intros [H1 H2]; first [exact H1 | discriminate H2] ]).
Qed.

Lemma processPages_text : forall pages i n fullText w,
  exists u,
    processPages i n (map inr pages) fullText w =
      (inr (fullText ++ List.concat (map pageContribution pages)),
       (u, rev (dueFrom i pages) ++ snd w))
    /\ inputText u = inputText (fst w)
    /\ isProcessingFile u = isProcessingFile (fst w)
    /\ (fileProcessingError u = None <->
        fileProcessingError (fst w) = None
        /\ existsb ocrFailed pages = false).
Proof.
  induction pages as [|p pages IH]; intros i n fullText w.
  - exists (fst w). destruct w. cbn. rewrite app_nil_r. tauto.
  - cbn [map processPages].
    destruct (processPage_text i n p fullText w) as (u1 & -> & I1 & P1 & E1).
    destruct (IH (S i) n (fullText ++ pageContribution p)
                (u1, (if ocrDue p then [i] else []) ++ snd w))
      as (u2 & -> & I2 & P2 & E2).
    exists u2. cbn [fst snd] in *.
    split; [|split; [congruence|split; [congruence|split]]].
    + cbn [map List.concat dueFrom]. rewrite <- !app_assoc.
      rewrite rev_app_distr, <- app_assoc. now destruct (ocrDue p).
    + intros H. apply E2 in H as [H1 H2]. apply E1 in H1 as [H0 H1].
      split; [exact H0|]. cbn [existsb]. now rewrite H1, H2.
    + intros [H0 H]. cbn [existsb] in H.
      apply orb_false_elim in H as [H1 H2].
      apply E2. split; [|exact H2]. apply E1. now split.
Qed.

(** X17: the text of a PDF document.  For a PDF document that loads and
    whose pages all load, the input text is, trimmed, the texts of the
    pages in the order of the pages, each followed by two line feeds,
    where the text of a page is what the OCR client read when the page is
    judged image-only and the reading succeeded, and the extracted text
    of the page otherwise; a failed reading does not stop the ingestion.
    A warning is shown exactly when the reading failed for some page. *)
Theorem pdf_text_with_ocr_fallback file pages w :
  isPdf file = true ->
  pdf file = inr (map inr pages) ->
  let u := fst (processFile file w) in
  inputText u = trim (List.concat (map pageContribution pages))
  /\ isProcessingFile u = false
  /\ (fileProcessingError u = None <-> existsb ocrFailed pages = false).
Proof.
  intros Hpdf Hdoc. unfold processFile, processFile_try. cbn [fst snd].
  rewrite Hpdf, Hdoc.
  match goal with
  | |- context [processPages 1 ?n (map inr pages) ?t ?w] =>
      destruct (processPages_text pages 1 n t w) as (u1 & -> & I1 & P1 & E1)
  end.
  cbn [setText fst snd setInputText setIsProcessingFile inputText
       isProcessingFile fileProcessingError app] in *.
  split; [reflexivity|split; [reflexivity|split]].
  - intros H. now apply E1 in H as [_ H].
  - intros H. apply E1. now split.
Qed.

Lemma pdf_text_with_ocr_fallback_witness :
  inputText (fst (processFile
                    (document "scan.pdf" ""
                       [scanned "Page 1" 200 true true; blurred])
                    (drafting, [])))
    = js "Text read by the OCR client.

Page 2"
  /\ fileProcessingError
       (fst (processFile
               (document "scan.pdf" ""
                  [scanned "Page 1" 200 true true; blurred])
               (drafting, []))) <> None.
Proof.
  destruct (pdf_text_with_ocr_fallback
              (document "scan.pdf" ""
                 [scanned "Page 1" 200 true true; blurred])
              [scanned "Page 1" 200 true true; blurred] (drafting, [])
              eq_refl eq_refl) as (H1 & _ & H3).
  split; [rewrite H1; vm_compute; reflexivity|].
  intros H. apply H3 in H. vm_compute in H. discriminate H.
Defined.

Lemma processPages_broken : forall before e after i n fullText w,
  exists u,
    processPages i n (map inr before ++ inl e :: after) fullText w =
      (inl e, (u, rev (dueFrom i before) ++ snd w))
    /\ inputText u = inputText (fst w).
Proof.
  induction before as [|p before IH]; intros e after i n fullText w.
  - cbn. eauto.
  - cbn [map app processPages].
    destruct (processPage_text i n p fullText w) as (u1 & -> & I1 & _).
    destruct (IH e after (S i) n (fullText ++ pageContribution p)
                (u1, (if ocrDue p then [i] else []) ++ snd w))
      as (u2 & -> & I2).
    exists u2. cbn [dueFrom snd fst] in *. split; [|congruence].
    rewrite rev_app_distr, <- app_assoc. now destruct (ocrDue p).
Qed.

(** X18: a page that does not load.  When a page of a PDF document cannot
    be loaded, or its text content cannot be read, the ingestion stops
    there: the message of what was thrown is shown, the input text is
    left empty, the text of the pages before being dropped, and the OCR
    client has been called for the pages before only. *)
Theorem broken_page_drops_the_text file before e after w :
  isPdf file = true ->
  pdf file = inr (map inr before ++ inl e :: after) ->
  let r := processFile file w in
  inputText (fst r) = []
  /\ fileProcessingError (fst r) = Some (shownMessage e)
  /\ isProcessingFile (fst r) = false
  /\ snd r = rev (dueFrom 1 before) ++ snd w.
Proof.
  intros Hpdf Hdoc. unfold processFile, processFile_try. cbn [fst snd].
  rewrite Hpdf, Hdoc.
  match goal with
  | |- context [processPages 1 ?n (map inr before ++ inl e :: after) ?t ?w] =>
      destruct (processPages_broken before e after 1 n t w) as (u1 & H & I1)
  end.
  cbn [snd fst] in H, I1. rewrite H. cbn [inputText setProcessingMessage
    setInputText setFileProcessingError setIsProcessingFile] in I1.
  destruct e; cbn; auto.
Qed.

Lemma broken_page_drops_the_text_witness :
  inputText
    (fst (processFile
            {| name := js "scan.pdf"; type := [];
               pdf := inr (map inr [scanned "Page 1" 200 true true]
                             ++ inl (Error_ (js "Invalid page request.")) :: []);
               docx := inl NotAnError; text := inl NotAnError |}
            (drafting, []))) = []
  /\ snd (processFile
            {| name := js "scan.pdf"; type := [];
               pdf := inr (map inr [scanned "Page 1" 200 true true]
                             ++ inl (Error_ (js "Invalid page request.")) :: []);
               docx := inl NotAnError; text := inl NotAnError |}
            (drafting, [])) = [1].
Proof.
  destruct (broken_page_drops_the_text
              {| name := js "scan.pdf"; type := [];
                 pdf := inr (map inr [scanned "Page 1" 200 true true]
                               ++ inl (Error_ (js "Invalid page request.")) :: []);
                 docx := inl NotAnError; text := inl NotAnError |}
              [scanned "Page 1" 200 true true]
              (Error_ (js "Invalid page request.")) [] (drafting, [])
              eq_refl eq_refl) as (H1 & _ & _ & H4).
  split; [exact H1|exact H4].
Defined.

Lemma processPages_log_grows : forall pages i n fullText w,
  exists l, snd (snd (processPages i n pages fullText w)) = l ++ snd w.
Proof.
  induction pages as [|pg pages IH]; intros i n fullText w.
  - now exists [].
  - cbn [processPages].
    destruct (processPage i n pg fullText w) as [[e|t] w1] eqn:E.
    + cbn [snd].
      assert (exists l, snd w1 = l ++ snd w) as (l & ->); [|now exists l].
      unfold processPage in E. destruct pg as [e'|p].
      * injection E as _ <-. now exists [].
      * destruct (needsOcr _ p); [|discriminate].
        unfold ocrPage in E.
        destruct (negb (context p)); [discriminate|].
        destruct (negb (render p)); [discriminate|].
        destruct (ocr p); discriminate.
    + assert (exists l, snd w1 = l ++ snd w) as (l & Hl).
      { destruct pg as [e'|p]; [discriminate|].
        destruct (processPage_text i n p fullText w) as (u & H & _).
        rewrite H in E. injection E as _ <-. cbn. eauto. }
      destruct (IH (S i) n t w1) as (l' & ->).
      exists (l' ++ l). now rewrite Hl, app_assoc.
Qed.

(** X19: what [processFile] always keeps.  Whatever the file and whatever
    the environment answers, the panel ends idle, the record of the OCR
    calls only grows, and no OCR call is made for a file that is not
    taken for a PDF. *)
Theorem processFile_invariants file w :
  isProcessingFile (fst (processFile file w)) = false
  /\ exists l, snd (processFile file w) = l ++ snd w
               /\ (isPdf file = false -> l = []).
Proof.
  unfold processFile.
  destruct (processFile_try file _) as [thrown w1] eqn:E.
  split; [reflexivity|]. cbn [snd].
  unfold processFile_try in E. cbn [fst snd] in E.
  destruct (isPdf file).
  - destruct (pdf file) as [e|pages].
    + injection E as _ <-. exists []. split; [reflexivity|discriminate].
    + match type of E with
      | context [processPages 1 ?n pages ?t ?w0] =>
          destruct (processPages_log_grows pages 1 n t w0) as (l & Hl);
          destruct (processPages 1 n pages t w0) as [[e|t1] w2]
      end; cbn [snd] in Hl.
      * injection E as _ <-. exists l. split; [exact Hl|discriminate].
      * cbn in E. injection E as _ <-. exists l. split; [exact Hl|discriminate].
  - exists []. split; [|reflexivity].
    destruct (isDocx file); [|destruct (isText file)].
    + destruct (docx file); cbn in E; injection E as _ <-; reflexivity.
    + destruct (text file); cbn in E; injection E as _ <-; reflexivity.
    + injection E as _ <-. reflexivity.
Qed.

Lemma processFile_invariants_witness :
  exists l,
    snd (processFile (notes "notes.txt" "" (inr (js "Quiz"))) (drafting, [3]))
      = l ++ [3]
    /\ l = [].
Proof.
  destruct (proj2 (processFile_invariants
                     (notes "notes.txt" "" (inr (js "Quiz"))) (drafting, [3])))
    as (l & H & Hl).
  exists l. split; [exact H|exact (Hl eq_refl)].
Defined.

Lemma split_noDot s : noDot s = true -> split 46 s = [s].
Proof.
  induction s as [|c r IH]; cbn; [reflexivity|].
  intros H. apply andb_prop in H as [Hc Hr].
  apply negb_true_iff in Hc. rewrite Hc, (IH Hr). reflexivity.
Qed.

(** X20: the extension of a file.  The extension [processFile] judges a
    file by is what follows the last dot of its name, in lower case, and
    the whole name, in lower case, when the name has no dot; so a name
    that ends in [.PDF], in any case, is taken for a PDF whatever the
    declared content type. *)
Theorem extension_after_last_dot file :
  (forall base ext,
     name file = base ++ 46%N :: ext -> noDot ext = true ->
     fileExtension file = toLowerCase ext)
  /\ (noDot (name file) = true -> fileExtension file = toLowerCase (name file))
  /\ (forall base ext,
        name file = base ++ 46%N :: ext ->
        toLowerCase ext = js "pdf" -> isPdf file = true).
Proof.
  assert (forall base ext,
            name file = base ++ 46%N :: ext -> noDot ext = true ->
            fileExtension file = toLowerCase ext) as H.
  { intros base ext Hn He. unfold fileExtension.
    rewrite Hn, ScriptFacts.split_app_sep, (split_noDot ext He).
    now rewrite last_last. }
  split; [exact H|split].
  - intros Hn. unfold fileExtension. now rewrite (split_noDot _ Hn).
  - intros base ext Hn He. unfold isPdf.
    rewrite (H base ext Hn), He; [reflexivity|].
    assert (noDot (toLowerCase ext) = true) as Hl by now rewrite He.
    unfold noDot, toLowerCase in *. rewrite forallb_forall in *.
    intros c Hc. specialize (Hl _ (in_map _ _ _ Hc)). cbn beta in Hl.
    destruct (N.eqb_spec c 46) as [->|]; [discriminate|reflexivity].
Qed.

Lemma extension_after_last_dot_witness :
  fileExtension (document "Annual.Report.PDF" "text/plain" []) = js "pdf"
  /\ isPdf (document "Annual.Report.PDF" "text/plain" []) = true.
Proof.
  split.
  - exact (proj1 (extension_after_last_dot
                    (document "Annual.Report.PDF" "text/plain" []))
             (js "Annual.Report") (js "PDF") eq_refl eq_refl).
  - exact (proj2 (proj2 (extension_after_last_dot
                           (document "Annual.Report.PDF" "text/plain" [])))
             (js "Annual.Report") (js "PDF") eq_refl eq_refl).
Defined.
End IngestionExtras.

Module AppExtras.
Import Gemini GeminiSpec App InputPanel IngestionSpec IngestionClaims.

(** X21: a generation cycle.  For a text that is empty or white space
    only, [handleGenerate] sends nothing to the model, shows the message
    that asks for a text and leaves the form and the loading flag as they
    were.  For any other text it sends this text, once, and ends not
    loading with either the form that [generateFormFromText] returned and
    no error, or no form and the message of the error it raised; the
    form held before is gone in both cases. *)
Theorem handleGenerate_cycle ai text a :
  let r := handleGenerate ai text a in
  (trim text = [] ->
     snd r = [] /\ error (fst r) = Some NO_TEXT
     /\ generatedForm (fst r) = generatedForm a
     /\ isLoading (fst r) = isLoading a)
  /\ (trim text <> [] ->
      snd r = [text] /\ isLoading (fst r) = false
      /\ match generateFormFromText (ai text) with
         | Returned form =>
             generatedForm (fst r) = Some form /\ error (fst r) = None
         | GenerationError message =>
             generatedForm (fst r) = None /\ error (fst r) = Some message
         end)
  /\ isModalOpen (fst r) = isModalOpen a.
Proof.
  unfold handleGenerate.
  destruct (trim text) as [|c t].
  - cbn. repeat split; congruence.
  - destruct (generateFormFromText (ai text)); cbn;
      (split; [discriminate|split; [|reflexivity]]); intros _; auto.
Qed.

Lemma handleGenerate_cycle_witness :
  snd (handleGenerate (fun _ => Answered (Some wellFormed)) (js "Quiz")
         {| generatedForm := None; isLoading := false; error := None;
            isModalOpen := false |}) = [js "Quiz"]
  /\ snd (handleGenerate (fun _ => Answered (Some wellFormed)) (js "  ")
            {| generatedForm := None; isLoading := false; error := None;
               isModalOpen := false |}) = [].
Proof.
  split.
  - refine (proj1 (proj1 (proj2 (handleGenerate_cycle
              (fun _ => Answered (Some wellFormed)) (js "Quiz")
              {| generatedForm := None; isLoading := false; error := None;
                 isModalOpen := false |})) _)).
    discriminate.
  - exact (proj1 (proj1 (handleGenerate_cycle
              (fun _ => Answered (Some wellFormed)) (js "  ")
              {| generatedForm := None; isLoading := false; error := None;
                 isModalOpen := false |}) eq_refl)).
Defined.

(** X22: the export dialog needs a form.  After a generation cycle for a
    text that is not blank, the export dialog can be rendered only when
    the cycle returned a form; after a failed cycle it is not rendered,
    even if it was open before. *)
Theorem modal_needs_a_form ai text a :
  trim text <> [] ->
  modalRendered (fst (handleGenerate ai text a)) = true ->
  exists form, generateFormFromText (ai text) = Returned form
               /\ generatedForm (fst (handleGenerate ai text a)) = Some form.
Proof.
  unfold handleGenerate, modalRendered. intros Ht.
  destruct (trim text) as [|c t]; [congruence|].
  destruct (generateFormFromText (ai text)) as [form|m]; cbn.
  - eauto.
  - rewrite andb_false_r. discriminate.
Qed.

Lemma modal_needs_a_form_witness :
  exists form,
    generateFormFromText (Answered (Some wellFormed)) = Returned form
    /\ generatedForm
         (fst (handleGenerate (fun _ => Answered (Some wellFormed)) (js "Quiz")
                 {| generatedForm := None; isLoading := false; error := None;
                    isModalOpen := true |})) = Some form.
Proof.
  refine (modal_needs_a_form (fun _ => Answered (Some wellFormed)) (js "Quiz")
            {| generatedForm := None; isLoading := false; error := None;
               isModalOpen := true |} _ eq_refl).
  discriminate.
Defined.


End AppExtras.

Module QuotingExtras.
Import GoogleFormModal ExportSpec ScriptFacts GeminiSpec.

Lemma hex_round d : (d < 16)%N -> hex_value (hex_digit d) = Some d.
Proof.
  intros H. unfold hex_digit, hex_value, is_digit.
  destruct (N.ltb_spec d 10).
  - replace ((48 <=? 48 + d) && (48 + d <=? 57))%N with true
      by (symmetry; apply andb_true_intro; split; apply N.leb_le; lia).
    f_equal. lia.
  - replace ((48 <=? 87 + d) && (87 + d <=? 57))%N with false
      by (symmetry; apply andb_false_intro2; apply N.leb_gt; lia).
    replace ((97 <=? 87 + d) && (87 + d <=? 102))%N with true
      by (symmetry; apply andb_true_intro; split; apply N.leb_le; lia).
    f_equal. lia.
Qed.

Lemma hex4_round c :
  (c < 65536)%N ->
  hex4 (hex_digit (c / 4096 mod 16)) (hex_digit (c / 256 mod 16))
       (hex_digit (c / 16 mod 16)) (hex_digit (c mod 16)) = Some c.
Proof.
  intros H. unfold hex4.
  rewrite !hex_round by (apply N.mod_lt; discriminate).
  f_equal.
  pose proof (N.div_mod c 16 ltac:(discriminate)) as H0.
  pose proof (N.div_mod (c / 16) 16 ltac:(discriminate)) as H1.
  pose proof (N.div_mod (c / 16 / 16) 16 ltac:(discriminate)) as H2.
  rewrite !N.Div0.div_div in H1, H2. change (16 * 16)%N with 256%N in *.
  change (256 * 16)%N with 4096%N in *.
  assert (c / 4096 < 16)%N as H3
    by (apply N.Div0.div_lt_upper_bound; exact H).
  rewrite N.Div0.div_div in H2. change (256 * 16)%N with 4096%N in H2.
  rewrite (N.mod_small (c / 4096) 16 H3). lia.
Qed.

Lemma lex_plain c r :
  c <> 34%N -> c <> 92%N ->
  lex_string (c :: r) =
  if (c <? 32)%N then None
  else match lex_string r with
       | Some (v, t) => Some (c :: v, t)
       | None => None
       end.
Proof.
  intros H1 H2. destruct c as [|p]; [reflexivity|].
  do 7 (try (destruct p as [p|p|]; try reflexivity; try congruence)).
Qed.

Lemma lex_unicode_escape c r v t :
  (c < 65536)%N -> lex_string r = Some (v, t) ->
  lex_string (unicode_escape c ++ r) = Some (c :: v, t).
Proof.
  intros Hc Hr. unfold unicode_escape. cbn [app].
  change (lex_string (92%N :: 117%N :: ?a :: ?b :: ?c0 :: ?d :: r))
    with (match hex4 a b c0 d with
          | Some x => match lex_string r with
                      | Some (v0, t0) => Some (x :: v0, t0)
                      | None => None
                      end
          | None => None
          end).
  now rewrite (hex4_round c Hc), Hr.
Qed.

Lemma lex_quote_unit c r v t :
  (c < 65536)%N -> lex_string r = Some (v, t) ->
  lex_string (quote_unit c ++ r) = Some (c :: v, t).
Proof.
  intros Hc Hr. unfold quote_unit.
  repeat match goal with
         | |- context [if (c =? ?k)%N then _ else _] =>
             destruct (N.eqb_spec c k) as [->|?];
             [cbn; rewrite Hr; reflexivity|]
         end.
  destruct (N.ltb_spec c 32); [now apply lex_unicode_escape|].
  destruct (is_high_surrogate c || is_low_surrogate c);
    [now apply lex_unicode_escape|].
  cbn [app]. rewrite lex_plain by assumption.
  replace (c <? 32)%N with false by (symmetry; apply N.ltb_ge; assumption).
  now rewrite Hr.
Qed.

Lemma lex_quote_units : forall n s rest,
  List.length s <= n -> forallb (fun c => c <? 65536)%N s = true ->
  lex_string (quote_units s ++ 34%N :: rest) = Some (s, rest).
Proof.
  induction n as [|n IH]; intros [|c r] rest Hn Hs; try reflexivity;
    cbn in Hn; [lia|].
  cbn in Hs. apply andb_prop in Hs as [Hc Hs]. apply N.ltb_lt in Hc.
  cbn [quote_units].
  destruct (is_high_surrogate c) eqn:Hh.
  - destruct r as [|d r'].
    + apply (lex_quote_unit c (34%N :: rest) [] rest Hc). reflexivity.
    + destruct (is_low_surrogate d) eqn:Hl.
      * cbn in Hs. apply andb_prop in Hs as [Hd Hs].
        apply andb_prop in Hh as [Hh _]. apply N.leb_le in Hh.
        apply andb_prop in Hl as [Hl _]. apply N.leb_le in Hl.
        cbn [app]. rewrite lex_plain by lia.
        replace (c <? 32)%N with false by (symmetry; apply N.ltb_ge; lia).
        rewrite lex_plain by lia.
        replace (d <? 32)%N with false by (symmetry; apply N.ltb_ge; lia).
        rewrite IH; [reflexivity|cbn in Hn; lia|exact Hs].
      * rewrite <- app_assoc.
        apply lex_quote_unit; [exact Hc|]. apply IH; [lia|exact Hs].
  - rewrite <- app_assoc.
    apply lex_quote_unit; [exact Hc|]. apply IH; [lia|exact Hs].
Qed.

(** X24: a quoted string reads back as the string.  The literal that
    [JSON.stringify] makes of a title, an option or an answer for the
    script, whatever quotes, backslashes, line feeds, control characters
    or lone surrogates the string holds, is one string literal that ends
    at its closing quote and denotes the string itself; so it parses, as
    JSON, to this string. *)
Theorem quoted_string_reads_back s :
  forallb (fun c => c <? 65536)%N s = true ->
  (forall rest,
     lex_string (tl (JSON_stringify s) ++ rest) = Some (s, rest))
  /\ JSON_parse (JSON_stringify s) = Some (JStr s).
Proof.
  intros Hs.
  assert (forall rest,
            lex_string (tl (JSON_stringify s) ++ rest) = Some (s, rest)) as H.
  { intros rest. unfold JSON_stringify. cbn [app tl].
    rewrite <- app_assoc. apply (lex_quote_units _ s rest (le_n _) Hs). }
  split; [exact H|].
  unfold JSON_parse, parse_fuel. rewrite Nat.add_1_r.
  generalize (2 * List.length (JSON_stringify s)). intros f.
  specialize (H []). rewrite app_nil_r in H.
  unfold JSON_stringify in *. cbn [app tl] in *.
  cbn -[lex_string quote_units]. now rewrite H.
Qed.

Lemma quoted_string_reads_back_witness :
  JSON_parse (JSON_stringify (jsq "Say 'yes'
or \no")) = Some (JStr (jsq "Say 'yes'
or \no")).
Proof.
  exact (proj2 (quoted_string_reads_back (jsq "Say 'yes'
or \no") eq_refl)).
Defined.
End QuotingExtras.

Module ScriptExtras.
Import GoogleFormModal ExportSpec ScriptFacts.

(** X25: the script sets up a quiz.  Whatever the title and the
    description of the form hold, the script opens the function
    [createFormFromAI], and its lines 16 to 18 create the form with the
    title as a quoted literal, set the description as a quoted literal,
    and turn quiz mode on, before any statement of an item; its last line
    closes the function. *)
Theorem script_sets_up_the_quiz form :
  let lines := split 10 (generateAppsScript form) in
  nth_error lines 0 = Some (js "function createFormFromAI() {")
  /\ nth_error lines 15
       = Some (js "    var form = FormApp.create("
                 ++ JSON_stringify (form_title form) ++ js ");")
  /\ nth_error lines 16
       = Some (js "    form.setDescription("
                 ++ JSON_stringify (form_description form) ++ js ");")
  /\ nth_error lines 17 = Some (js "    form.setIsQuiz(true); // Make it a quiz!")
  /\ last lines [] = js "}".
Proof.
  cbv zeta. rewrite generateAppsScript_lines, split_join.
  - repeat split; try reflexivity.
    rewrite !app_assoc.
    change scriptTail with (removelast scriptTail ++ [js "}"]).
    rewrite app_assoc. apply last_last.
  - discriminate.
  - rewrite !forallb_app, noLineFeed_head, noLineFeed_itemsLines. reflexivity.
Qed.
End ScriptExtras.
